(** * ICDC data retriever: matching and aggregation pipeline

    A shallow embedding of [src/fetchData.js] and [src/utils/arrayUtils.js]
    together with the properties stated for them.

    Conventions of the embedding.
    - A JavaScript string is a [string]; each character stands for one code
      unit below 256.
    - A JavaScript number that holds a count is [number]: NaN, an infinity
      or an integer-valued double. Sums and [parseInt] round to the nearest
      double, ties to even, as IEEE 754 does ([roundDouble]); they are exact
      up to [MAX_SAFE_INTEGER]. The two zeros are not told apart: no code
      here divides or inspects the sign of a zero.
    - A JSON body has the shape its service documents: records with string
      fields, where a field that a claim needs to be absent is optional.
    - A function that can throw returns an [outcome].
    - [console.error] appends to a list of logged values.
    - The objects of the archive A listing are shared and mutated in place
      by [getIdcCollectionMetadata]; they live in a heap (a list indexed by
      position) and a match result refers to its metadata by position. *)

From stdpp Require Import base option list strings pretty gmap.
From Stdlib Require Import ZArith Ascii String Lia.

#[local] Set Warnings "-clear-no-such-hyp".

Local Open Scope string_scope.
Local Open Scope list_scope.
Local Open Scope Z_scope.

(** ** JavaScript values and errors *)

Inductive js_error :=
| FetchError            (* the promise of fetch() rejected *)
| SyntaxError           (* the promise of response.json() rejected *)
| TypeError             (* property access on undefined, or a call on a non-function *)
| Error (message : string).

Inductive outcome (A : Type) :=
| Ok (a : A)
| Throw (e : js_error).
Arguments Ok {A} a.
Arguments Throw {A} e.

Inductive number :=
| NaN
| Infinity (negative : bool)
| Int (z : Z).

(** [Number.MAX_SAFE_INTEGER] *)
Definition MAX_SAFE_INTEGER : Z := 2 ^ 53 - 1.

(** The double nearest to the integer [z], ties to the even significand.
    Below [2 ^ 53] in magnitude every integer is a double. Above, a double
    has a significand [q] of 53 bits and an exponent [e]; a result that
    rounds to [2 ^ 1024] or beyond overflows to an infinity. *)
Definition roundDouble (z : Z) : number :=
  let a := Z.abs z in
  if a <? 2 ^ 53 then Int z
  else
    let e := Z.log2 a - 52 in
    let q := a / 2 ^ e in
    let r := a mod 2 ^ e in
    let half := 2 ^ (e - 1) in
    let q' := if (half <? r) || ((r =? half) && Z.odd q) then q + 1 else q in
    let m := q' * 2 ^ e in
    if 2 ^ 1024 <=? m then Infinity (z <? 0) else Int (Z.sgn z * m).

(** [a + b] on numbers: NaN is absorbing, opposite infinities add up to
    NaN, and the sum of two doubles is the double nearest to their exact
    sum. *)
Definition num_add (a b : number) : number :=
  match a, b with
  | NaN, _ | _, NaN => NaN
  | Infinity s, Infinity t => if Bool.eqb s t then Infinity s else NaN
  | Infinity s, Int _ | Int _, Infinity s => Infinity s
  | Int x, Int y => roundDouble (x + y)
  end.

(** [a > 0] where [a] is a number, or undefined when the property is absent:
    undefined converts to NaN and every comparison with NaN is false. *)
Definition gt_zero (a : option Z) : bool :=
  match a with
  | Some z => 0 <? z
  | None => false
  end.

(** *** Strings *)

Definition code (c : ascii) : N := N_of_ascii c.

(** White space of [\s] and of the trimming done by [parseInt]
    (tab, line feed, vertical tab, form feed, carriage return, space,
    no-break space). *)
Definition isWhiteSpace (c : ascii) : bool :=
  bool_decide (code c ∈ [9; 10; 11; 12; 13; 32; 160]%N).

(** Line terminators, which [.] does not match. *)
Definition isLineTerminator (c : ascii) : bool :=
  bool_decide (code c ∈ [10; 13]%N).

Fixpoint trimStart (s : string) : string :=
  match s with
  | String c r => if isWhiteSpace c then trimStart r else s
  | EmptyString => s
  end.

(** [s.includes(key)] *)
Fixpoint includes (s key : string) : bool :=
  String.prefix key s ||
  match s with
  | String _ r => includes r key
  | EmptyString => false
  end.

(** *** parseInt *)

Definition digitValue (c : ascii) : option Z :=
  let n := Z.of_N (code c) in
  if (48 <=? n) && (n <=? 57) then Some (n - 48)
  else if (97 <=? n) && (n <=? 122) then Some (n - 87)
  else if (65 <=? n) && (n <=? 90) then Some (n - 55)
  else None.

(** The value of the longest prefix of digits of the radix; [acc] is [None]
    until a digit has been read. *)
Fixpoint digitsPrefix (radix : Z) (s : string) (acc : option Z) : option Z :=
  match s with
  | String c r =>
      match digitValue c with
      | Some d =>
          if d <? radix
          then digitsPrefix radix r (Some (radix * default 0 acc + d))
          else acc
      | None => acc
      end
  | EmptyString => acc
  end.

(** [parseInt(s)] with no radix: leading white space and a sign are skipped,
    a [0x] prefix selects radix 16, and the longest prefix of digits is
    read; the result is the double nearest to the signed value, or NaN
    when there is no digit. *)
Definition parseInt (s : string) : number :=
  let s1 := trimStart s in
  let '(sign, s2) :=
    match s1 with
    | String "-" r => (-1, r)
    | String "+" r => (1, r)
    | _ => (1, s1)
    end in
  let '(radix, s3) :=
    match s2 with
    | String "0" (String "x" r) => (16, r)
    | String "0" (String "X" r) => (16, r)
    | _ => (10, s2)
    end in
  match digitsPrefix radix s3 None with
  | Some v => roundDouble (sign * v)
  | None => NaN
  end.

(** *** Set

    [new Set(iterable)] adds the elements one by one and keeps insertion
    order; [[...set]] lists them in that order. *)
Definition Set_add {A} `{EqDecision A} (s : list A) (x : A) : list A :=
  if decide (x ∈ s) then s else s ++ [x].

Definition Set_of {A} `{EqDecision A} (l : list A) : list A :=
  foldl Set_add [] l.

(** [array.reduce(f, init)] *)
Definition reduce {A B} (f : B -> A -> B) (init : B) (l : list A) : B :=
  foldl f init l.

(** ** State and exceptions

    A computation reads and writes a state [S] and either returns or
    throws; what it wrote before throwing stays written. *)

Definition M (S A : Type) : Type := S -> outcome A * S.

#[export] Instance M_ret {S} : MRet (M S) := fun A a s => (Ok a, s).
#[export] Instance M_bind {S} : MBind (M S) := fun A B f m s =>
  match m s with
  | (Ok a, s') => f a s'
  | (Throw e, s') => (Throw e, s')
  end.

Definition throw {S A} (e : js_error) : M S A := fun s => (Throw e, s).

(** An [outcome] computed without touching the state. *)
Definition lift {S A} (o : outcome A) : M S A := fun s => (o, s).

(** [try { body } catch (error) { handler(error) }] *)
Definition try_catch {S A} (body : M S A) (handler : js_error -> M S A) : M S A :=
  fun s =>
    match body s with
    | (Ok a, s') => (Ok a, s')
    | (Throw e, s') => handler e s'
    end.

(** [console.error(error)] on a state that is the console. *)
Definition console_error (error : js_error) : M (list js_error) unit :=
  fun console => (Ok tt, console ++ [error]).

(** Runs [m] on a heap of its own and hands back the heap with the result. *)
Definition with_heap {S H A} (h : H) (m : M H A) : M S (A * H) :=
  fun s =>
    match m h with
    | (Ok a, h') => (Ok (a, h'), s)
    | (Throw e, _) => (Throw e, s)
    end.

(** [for (const i in array) { acc = body(array[i], acc) }]: the keys of an
    array are visited in ascending order. *)
Fixpoint for_in {S A B} (array : list A) (body : A -> B -> M S B) (acc : B) : M S B :=
  match array with
  | [] => mret acc
  | x :: rest => acc' ← body x acc; for_in rest body acc'
  end.

(** ** Responses of the external services

    [await fetch(url)] followed by [await response.json()]: the first
    promise rejects on a transport failure, the second when the body is not
    JSON. *)

Inductive response (A : Type) :=
| Rejected
| Malformed
| Json (data : A).
Arguments Rejected {A}.
Arguments Malformed {A}.
Arguments Json {A} data.

Definition fetch_json {S A} (r : response A) : M S A :=
  match r with
  | Rejected => throw FetchError
  | Malformed => throw SyntaxError
  | Json data => mret data
  end.

(** ** Data model *)

(** A study of the registry; a count that the response leaves out is
    undefined. *)
Record Study := {
  clinical_study_designation : string;
  numberOfImageCollections : option Z;
  numberOfCRDCNodes : option Z;
}.

(** The body of the registry response, [{ data: { studiesByProgram } }],
    where [data] may be absent or null and [studiesByProgram] absent. *)
Record RegistryData := { studiesByProgram : option (list Study) }.
Record RegistryBody := { data : option RegistryData }.

(** An item of the archive A listing as it arrives. *)
Record IdcItem := {
  item_collection_id : option string;
  item_description : string;
}.

Record IdcBody := { collections : option (list IdcItem) }.

(** An archive A collection once filtered: its id is a string. *)
Record IdcCollection := {
  collection_id : string;
  description : string;
}.

(** An item of the archive B listing as it arrives. *)
Record TciaItem := { item_Collection : option string }.

(** A series record of archive B. *)
Record Series := {
  ImageCount : string;
  PatientID : string;
  Modality : string;
  BodyPartExamined : string;
}.

Record TciaMetadata := {
  Collection : string;
  Aggregate_PatientID : nat;
  Aggregate_Modality : list string;
  Aggregate_BodyPartExamined : list string;
  Aggregate_ImageCount : number;
}.

Inductive Repository := IDC | TCIA.

(** The metadata of an archive A match is the collection object itself,
    named here by its position in the listing. *)
Inductive Metadata :=
| IdcMetadata (ref : nat)
| TciaMeta (m : TciaMetadata).

Record MatchResult := {
  repository : Repository;
  url : string;
  metadata : Metadata;
}.

Record StudyMapping := {
  CRDCLinks : list MatchResult;
  mapping_numberOfCRDCNodes : option Z;
  mapping_numberOfImageCollections : option Z;
  mapping_clinical_study_designation : string;
}.

(** ** utils/arrayUtils.js *)

(** [array.filter((obj) => obj[property].includes(key))]. A property is
    given by its accessor; [None] is a record without it, on which
    [.includes] is a TypeError that ends the whole filter. *)
Fixpoint filterObjectArray {A} (array : list A) (property : A -> option string)
    (key : string) : outcome (list A) :=
  match array with
  | [] => Ok []
  | obj :: rest =>
      match property obj with
      | None => Throw TypeError
      | Some value =>
          match filterObjectArray rest property key with
          | Ok kept => Ok (if includes value key then obj :: kept else kept)
          | Throw e => Throw e
          end
      end
  end.

(** ** fetchData.js *)

(** *** Text clean-up for the special case

    The three replacements applied to the description of GLIOMA01. *)

Fixpoint dropString (n : nat) (s : string) : string :=
  match n, s with
  | S k, String _ r => dropString k r
  | _, _ => s
  end.

(** Number of white space characters at the start of [s]. *)
Fixpoint leadingWhiteSpace (s : string) : nat :=
  match s with
  | String c r => if isWhiteSpace c then S (leadingWhiteSpace r) else O
  | EmptyString => O
  end.

(** Length of the shortest [.*?\]] at the start of [s]: the characters up to
    the first closing bracket, none of them a line terminator. *)
Fixpoint lazyToBracket (s : string) : option nat :=
  match s with
  | String c r =>
      if bool_decide (c = "]"%char) then Some 1%nat
      else if isLineTerminator c then None
      else S <$> lazyToBracket r
  | EmptyString => None
  end.

(** Length of the match of [\s*\[.*?\]\s*] at the start of [s]. *)
Definition matchAnnotation (s : string) : option nat :=
  let w := leadingWhiteSpace s in
  match dropString w s with
  | String "[" r =>
      n ← lazyToBracket r;
      Some (w + 1 + n + leadingWhiteSpace (dropString n r))%nat
  | _ => None
  end.

(** Length of the match of [\n\n|\s*\[.*?\]\s*] at the start of [s]; the
    first alternative is tried first. *)
Definition matchBlankOrAnnotation (s : string) : option nat :=
  if String.prefix (String "010" (String "010" "")) s then Some 2%nat
  else matchAnnotation s.

(** Length of the match of [/ \./] at the start of [s]. *)
Definition matchSpaceDot (s : string) : option nat :=
  if String.prefix " ." s then Some 2%nat else None.

(** [s.replace(/re/g, by)] for a pattern that matches no empty string:
    [matchLen] gives the length of the match at the start of its argument;
    [skip] counts the characters of the current match still to pass. *)
Fixpoint replaceAll (matchLen : string -> option nat) (by_ : string)
    (skip : nat) (s : string) : string :=
  match s with
  | String c r =>
      match skip with
      | S k => replaceAll matchLen by_ k r
      | O =>
          match matchLen s with
          | Some (S n) => (by_ ++ replaceAll matchLen by_ n r)%string
          | _ => String c (replaceAll matchLen by_ O r)
          end
      end
  | EmptyString => EmptyString
  end.

(** [s.replace(pattern, by)] with a string pattern: the first occurrence. *)
Fixpoint replaceFirst (pattern by_ : string) (s : string) : string :=
  if String.prefix pattern s
  then (by_ ++ dropString (String.length pattern) s)%string
  else match s with
       | String c r => String c (replaceFirst pattern by_ r)
       | EmptyString => EmptyString
       end.

Definition cleanGlioma (cleanedDescText : string) : string :=
  replaceFirst " ICDC-Glioma" ""
    (replaceAll matchSpaceDot "." O
       (replaceAll matchBlankOrAnnotation " " O cleanedDescText)).

Inductive returned :=
| Mappings (collectionMappings : list StudyMapping)
| Caught (error : js_error).

(** What the services answer during one run. The series endpoint is asked
    once per listed name; its answer may depend on the position of the
    call as well as on the name. *)
Record World := {
  registry : response RegistryBody;
  idcListing : response IdcBody;
  tciaListing : response (list TciaItem);
  tciaSeries : nat -> string -> response (list Series);
}.

Section FetchData.

(** [constants/dataRetrieval.js] and [constants/error.js] *)
Variable IDC_COLLECTION_BASE_URL : string.
Variable TCIA_COLLECTION_BASE_URL : string.
Variable BENTO_BACKEND_NOT_CONNECTED : string.

(** [search] of fast-fuzzy with its default options, and [htmlToText] of
    html-to-text with [wordwrap: null]. *)
Variable search : string -> list string -> list string.
Variable htmlToText : string -> string.

Definition idcRecord (item : IdcItem) : option IdcCollection :=
  id ← item_collection_id item;
  Some {| collection_id := id; description := item_description item |}.

(** Every item that passes the filter has a [collection_id], so the
    records returned are the filtered items, one for one
    ([idcRecord_filtered] below). *)
Definition getIdcCollections (answer : response IdcBody)
    : M (list js_error) (list IdcCollection) :=
  try_catch
    (data ← fetch_json answer;
     filteredCollections ←
       lift match collections data with
            | Some array => filterObjectArray array item_collection_id "icdc_"
            | None => Throw TypeError
            end;
     mret (omap idcRecord filteredCollections))
    (fun error => _ ← console_error error; mret []).

Definition getTciaCollections (answer : response (list TciaItem))
    : M (list js_error) (list string) :=
  try_catch
    (data ← fetch_json answer;
     filtered ← lift (filterObjectArray data item_Collection "ICDC-");
     let collectionIds := omap item_Collection filtered in
     mret collectionIds)
    (fun error => _ ← console_error error; mret []).

Definition getTciaCollectionData (answer : response (list Series))
    : M (list js_error) (list Series) :=
  try_catch
    (data ← fetch_json answer;
     mret data)
    (fun error => _ ← console_error error; mret []).

Definition getIcdcStudyData (answer : response RegistryBody)
    : M (list js_error) (option (list Study)) :=
  try_catch
    (json ← fetch_json answer;
     let studyData := d ← data json; studiesByProgram d in
     mret studyData)
    (fun error =>
       _ ← console_error error;
       throw (Error BENTO_BACKEND_NOT_CONNECTED)).

(** The loop of [getTciaCollectionsData]; [i] is the position of the
    next name in the listing. *)
Fixpoint getTciaCollectionsData_from (series : nat -> string -> response (list Series))
    (i : nat) (tciaCollections : list string)
    (tciaCollectionsData : gmap string (list Series))
    : M (list js_error) (gmap string (list Series)) :=
  match tciaCollections with
  | [] => mret tciaCollectionsData
  | collection :: rest =>
      tciaCollectionData ← getTciaCollectionData (series i collection);
      getTciaCollectionsData_from series (S i) rest
        (<[collection := tciaCollectionData]> tciaCollectionsData)
  end.

Definition getTciaCollectionsData (series : nat -> string -> response (list Series))
    (tciaCollections : list string)
    : M (list js_error) (gmap string (list Series)) :=
  getTciaCollectionsData_from series O tciaCollections ∅.

Definition isGlioma (icdcStudy : Study) : bool :=
  bool_decide (clinical_study_designation icdcStudy = "GLIOMA01").

(** The description that [getIdcCollectionMetadata] stores. *)
Definition cleanDescription (icdcStudy : Study) (description : string) : string :=
  let cleanedDescText := htmlToText description in
  if isGlioma icdcStudy then cleanGlioma cleanedDescText else cleanedDescText.

(** The state is the array [idcCollections]; the object found is updated
    in place and returned, here as its position. Reading
    ["description"] of the undefined left by a failed [find] throws. *)
Definition getIdcCollectionMetadata (collectionId : string) (icdcStudy : Study)
    : M (list IdcCollection) nat :=
  fun idcCollections =>
    match list_find (fun obj => collection_id obj = collectionId) idcCollections with
    | Some (i, obj) =>
        let updated :=
          {| collection_id := collection_id obj;
             description := cleanDescription icdcStudy (description obj) |} in
        (Ok i, <[i := updated]> idcCollections)
    | None => (Throw TypeError, idcCollections)
    end.

Definition getTciaCollectionMetadata (collectionId : string)
    (tciaCollectionsData : gmap string (list Series)) (icdcStudy : Study)
    : outcome TciaMetadata :=
  match tciaCollectionsData !! collectionId with
  | Some tciaCollectionMetadata =>
      let totalImages :=
        reduce (fun tot obj => num_add tot (parseInt (ImageCount obj)))
               (Int 0) tciaCollectionMetadata in
      let totalPatients :=
        List.length (Set_of (PatientID <$> tciaCollectionMetadata)) in
      let uniqueModalities := Set_of (Modality <$> tciaCollectionMetadata) in
      let uniqueBodypartsExamined :=
        Set_of (BodyPartExamined <$> tciaCollectionMetadata) in
      let '(uniqueModalities, totalImages) :=
        if isGlioma icdcStudy
        then (uniqueModalities ++ ["Histopathology"], num_add totalImages (Int 84))
        else (uniqueModalities, totalImages) in
      Ok {| Collection := collectionId;
            Aggregate_PatientID := totalPatients;
            Aggregate_Modality := uniqueModalities;
            Aggregate_BodyPartExamined := uniqueBodypartsExamined;
            Aggregate_ImageCount := totalImages |}
  | None => Throw TypeError
  end.

(** [tciaCollectionsData[name]?.length > 0]. The names looked up are those
    of the archive B listing, which [getTciaCollections] keeps only when
    they include "ICDC-" and under which [getTciaCollectionsData] stores
    the series: none of them names a member of [Object.prototype], so the
    lookup finds an own property or nothing, as the lookup in the map
    does. *)
Definition hasSeries (tciaCollectionsData : gmap string (list Series))
    (name : string) : bool :=
  match tciaCollectionsData !! name with
  | Some (_ :: _) => true
  | _ => false
  end.

Definition mapMatchesToStudy (icdcStudy : Study) (tciaCollections : list string)
    (tciaCollectionsData : gmap string (list Series))
    : M (list IdcCollection) (list MatchResult) :=
  fun idcCollections =>
    let collectionUrls := [] in
    let idcMatches :=
      search (clinical_study_designation icdcStudy)
             (collection_id <$> idcCollections) in
    let tciaMatches :=
      search (clinical_study_designation icdcStudy) tciaCollections in
    (collectionUrls ←
       (if negb (List.length idcMatches =? 0)%nat then
          for_in idcMatches (fun match_ collectionUrls =>
            let idcCollectionUrl := (IDC_COLLECTION_BASE_URL ++ match_)%string in
            idcCollectionMetadata ← getIdcCollectionMetadata match_ icdcStudy;
            mret (collectionUrls ++
                  [{| repository := IDC;
                      url := idcCollectionUrl;
                      metadata := IdcMetadata idcCollectionMetadata |}]))
            collectionUrls
        else mret collectionUrls);
     if negb (List.length tciaMatches =? 0)%nat then
       for_in tciaMatches (fun match_ collectionUrls =>
         if hasSeries tciaCollectionsData match_ then
           let tciaCollectionUrl := (TCIA_COLLECTION_BASE_URL ++ match_)%string in
           tciaCollectionMetadata ←
             lift (getTciaCollectionMetadata match_ tciaCollectionsData icdcStudy);
           mret (collectionUrls ++
                 [{| repository := TCIA;
                     url := tciaCollectionUrl;
                     metadata := TciaMeta tciaCollectionMetadata |}])
         else mret collectionUrls)
         collectionUrls
     else mret collectionUrls) idcCollections.

(** [for (const study in icdcStudies)] visits nothing when [icdcStudies]
    is undefined. *)
Definition collectMappings (icdcStudies : option (list Study))
    (tciaCollections : list string)
    (tciaCollectionsData : gmap string (list Series))
    : M (list IdcCollection) (list StudyMapping) :=
  for_in (default [] icdcStudies) (fun study collectionMappings =>
      collectionUrls ← mapMatchesToStudy study tciaCollections tciaCollectionsData;
      if gt_zero (numberOfCRDCNodes study) then
        mret (collectionMappings ++
              [{| CRDCLinks := collectionUrls;
                  mapping_numberOfCRDCNodes := numberOfCRDCNodes study;
                  mapping_numberOfImageCollections := numberOfImageCollections study;
                  mapping_clinical_study_designation :=
                    clinical_study_designation study |}])
      else mret collectionMappings)
    [].

(** The value the promise of [mapExternalDataToStudies] resolves with,
    and the archive A objects its links point into. The function has no
    path on which the promise rejects. *)
Definition mapExternalDataToStudies (w : World)
    : M (list js_error) (returned * list IdcCollection) :=
  try_catch
    (icdcStudies ← getIcdcStudyData (registry w);
     idcCollections ← getIdcCollections (idcListing w);
     tciaCollections ← getTciaCollections (tciaListing w);
     tciaCollectionsData ← getTciaCollectionsData (tciaSeries w) tciaCollections;
     '(collectionMappings, heap) ←
       with_heap idcCollections
         (collectMappings icdcStudies tciaCollections tciaCollectionsData);
     mret (Mappings collectionMappings, heap))
    (fun error => _ ← console_error error; mret (Caught error, [])).

End FetchData.

(** * Properties *)

(** ** Sets in insertion order *)

Section SetOf.
Context {A : Type} `{EqDecision A}.

(** The distinct values of a list in the order in which they are first
    seen. *)
Fixpoint first_seen (l : list A) : list A :=
  match l with
  | [] => []
  | x :: rest => x :: filter (fun y => y ≠ x) (first_seen rest)
  end.

Lemma elem_of_first_seen (l : list A) (x : A) : x ∈ first_seen l ↔ x ∈ l.
Proof.
  induction l as [|y l IH]; simpl; [done|].
  rewrite !elem_of_cons, list_elem_of_filter, IH.
  destruct (decide (x = y)); naive_solver.
Qed.

Lemma NoDup_first_seen (l : list A) : NoDup (first_seen l).
Proof.
  induction l as [|y l IH]; simpl; [constructor|].
  constructor.
  - rewrite list_elem_of_filter. naive_solver.
  - by apply NoDup_filter.
Qed.

Lemma foldl_Set_add (l acc : list A) :
  foldl Set_add acc l = acc ++ filter (fun y => y ∉ acc) (first_seen l).
Proof.
  revert acc. induction l as [|x l IH]; intros acc; simpl.
  - by rewrite app_nil_r.
  - rewrite IH. unfold Set_add. destruct (decide (x ∈ acc)) as [Hin|Hout].
    + rewrite filter_cons_False by naive_solver.
      rewrite list_filter_filter. f_equal.
      apply list_filter_iff. intros y. split; [|naive_solver].
      intros Hy; split; [done|]. intros ->. done.
    + rewrite filter_cons_True by done.
      rewrite <- app_assoc. simpl. do 2 f_equal.
      rewrite list_filter_filter.
      apply list_filter_iff. intros y.
      rewrite elem_of_app, list_elem_of_singleton. naive_solver.
Qed.

Lemma Set_of_first_seen (l : list A) : Set_of l = first_seen l.
Proof.
  unfold Set_of. rewrite foldl_Set_add. simpl.
  induction (first_seen l) as [|x k IH]; [done|].
  rewrite filter_cons_True by apply not_elem_of_nil. by rewrite IH.
Qed.

Lemma NoDup_Set_of (l : list A) : NoDup (Set_of l).
Proof. rewrite Set_of_first_seen. apply NoDup_first_seen. Qed.

Lemma elem_of_Set_of (l : list A) (x : A) : x ∈ Set_of l ↔ x ∈ l.
Proof. rewrite Set_of_first_seen. apply elem_of_first_seen. Qed.
End SetOf.

(** ** Aggregates of an archive B collection *)

(** The sum of the image counts, each parsed as an integer, added up from
    the left in double arithmetic. *)
Definition sum_of_parsed (counts : list string) : number :=
  foldl (fun tot c => num_add tot (parseInt c)) (Int 0) counts.

(** The exact sum of a list of natural numbers. *)
Definition total (counts : list N) : Z :=
  foldr (fun n acc => Z.of_N n + acc) 0 counts.

(** The number of distinct values of a list. *)
Definition count_distinct (l : list string) : nat :=
  size (list_to_set l : gset string).

Lemma total_images (series : list Series) :
  reduce (fun tot obj => num_add tot (parseInt (ImageCount obj))) (Int 0) series
  = sum_of_parsed (ImageCount <$> series).
Proof.
  unfold reduce, sum_of_parsed. generalize (Int 0).
  induction series as [|obj series IH]; intros tot; simpl; [done|].
  apply IH.
Qed.

Lemma total_nonneg (counts : list N) : 0 ≤ total counts.
Proof. induction counts as [|n counts IH]; simpl; lia. Qed.

(** *** Doubles on the safe integers *)

Lemma roundDouble_safe (z : Z) :
  Z.abs z ≤ MAX_SAFE_INTEGER → roundDouble z = Int z.
Proof.
  unfold MAX_SAFE_INTEGER, roundDouble. intros Hsafe.
  assert ((Z.abs z <? 2 ^ 53) = true) as -> by (apply Z.ltb_lt; lia).
  done.
Qed.

(** *** Decimal numerals

    [pretty n] is the decimal numeral of the natural number [n], written
    from its last digit backwards by repeated division by 10. *)

Lemma digitValue_pretty_N_char (d : N) :
  (d < 10)%N → digitValue (pretty_N_char d) = Some (Z.of_N d).
Proof.
  intros Hd.
  assert (d ∈ [0; 1; 2; 3; 4; 5; 6; 7; 8; 9]%N) as Hcases.
  { rewrite !elem_of_cons. lia. }
  repeat (apply elem_of_cons in Hcases as [->|Hcases]; [reflexivity|]).
  by apply elem_of_nil in Hcases.
Qed.

Lemma digitsPrefix_pretty_N_go (x : N) (rest : string) :
  (0 < x)%N →
  digitsPrefix 10 (pretty_N_go x rest) None
  = digitsPrefix 10 rest (Some (Z.of_N x)).
Proof.
  revert rest. induction (N.lt_wf_0 x) as [x _ IH]. intros rest Hpos.
  rewrite pretty_N_go_step by done.
  assert ((x `mod` 10) < 10)%N as Hdigit by (apply N.mod_lt; lia).
  assert (x = 10 * (x `div` 10) + (x `mod` 10))%N as HxN
    by (apply N.div_mod; lia).
  assert (Z.of_N x = 10 * Z.of_N (x `div` 10) + Z.of_N (x `mod` 10)) as Hx
    by lia.
  destruct (decide (x `div` 10 = 0)%N) as [Hlast|Hmore].
  - rewrite Hlast, pretty_N_go_0. simpl.
    rewrite digitValue_pretty_N_char by done.
    assert ((Z.of_N (x `mod` 10) <? 10) = true) as -> by (apply Z.ltb_lt; lia).
    do 2 f_equal. rewrite Hx, Hlast. lia.
  - rewrite IH.
    + simpl. rewrite digitValue_pretty_N_char by done.
      assert ((Z.of_N (x `mod` 10) <? 10) = true) as -> by (apply Z.ltb_lt; lia).
      do 2 f_equal. rewrite Hx. simpl. lia.
    + apply N.div_lt; lia.
    + lia.
Qed.

Lemma pretty_N_go_head (x : N) (rest : string) :
  (0 < x)%N →
  ∃ d r, (1 ≤ d ≤ 9)%N ∧ pretty_N_go x rest = String (pretty_N_char d) r.
Proof.
  revert rest. induction (N.lt_wf_0 x) as [x _ IH]. intros rest Hpos.
  rewrite pretty_N_go_step by done.
  destruct (decide (x `div` 10 = 0)%N) as [Hlast|Hmore].
  - rewrite Hlast, pretty_N_go_0. exists (x `mod` 10)%N, rest. split; [|done].
    assert ((x `mod` 10) < 10)%N as Hdigit by (apply N.mod_lt; lia).
    assert (x = 10 * (x `div` 10) + (x `mod` 10))%N as Hx
      by (apply N.div_mod; lia).
    rewrite Hlast in Hx. revert Hdigit Hx. generalize (x `mod` 10)%N. lia.
  - apply IH.
    + apply N.div_lt; lia.
    + apply N.neq_0_lt_0. exact Hmore.
Qed.

Lemma parseInt_digit (d : N) (r : string) :
  (1 ≤ d ≤ 9)%N →
  parseInt (String (pretty_N_char d) r)
  = match digitsPrefix 10 (String (pretty_N_char d) r) None with
    | Some v => roundDouble (1 * v)
    | None => NaN
    end.
Proof.
  intros Hd.
  assert (d ∈ [1; 2; 3; 4; 5; 6; 7; 8; 9]%N) as Hcases.
  { rewrite !elem_of_cons. lia. }
  repeat (apply elem_of_cons in Hcases as [->|Hcases]; [reflexivity|]).
  by apply elem_of_nil in Hcases.
Qed.

(** [parseInt] reads a decimal numeral as the double nearest to its
    number. *)
Lemma parseInt_pretty (n : N) : parseInt (pretty n) = roundDouble (Z.of_N n).
Proof.
  unfold pretty, pretty_N. destruct (decide (n = 0)%N) as [->|Hpos].
  - reflexivity.
  - destruct (pretty_N_go_head n "") as (d & r & Hd & Hhead); [lia|].
    rewrite Hhead, parseInt_digit by done. rewrite <- Hhead.
    rewrite digitsPrefix_pretty_N_go by lia. simpl. by rewrite Z.mul_1_l.
Qed.

(** Adding up numerals from a safe integer stays exact as long as the sum
    is safe. *)
Lemma sum_numerals (counts : list N) (a : Z) :
  0 ≤ a →
  a + total counts ≤ MAX_SAFE_INTEGER →
  foldl (fun tot c => num_add tot (parseInt c)) (Int a) (pretty <$> counts)
  = Int (a + total counts).
Proof.
  revert a. induction counts as [|n counts IH]; intros a Ha Hsafe.
  - simpl. f_equal. lia.
  - pose proof (total_nonneg counts). simpl in Hsafe. csimpl.
    rewrite parseInt_pretty, roundDouble_safe by lia. simpl.
    rewrite roundDouble_safe by lia.
    rewrite IH by lia. f_equal. lia.
Qed.

Lemma sum_of_parsed_numerals (counts : list N) :
  total counts ≤ MAX_SAFE_INTEGER →
  sum_of_parsed (pretty <$> counts) = Int (total counts).
Proof.
  intros Hsafe. unfold sum_of_parsed. by rewrite sum_numerals.
Qed.

Lemma length_Set_of (l : list string) :
  List.length (Set_of l) = count_distinct l.
Proof.
  unfold count_distinct.
  rewrite <- (size_list_to_set (C := gset string) (Set_of l)) by apply NoDup_Set_of.
  f_equal. apply set_eq. intros x.
  by rewrite !elem_of_list_to_set, elem_of_Set_of.
Qed.

Lemma isGlioma_true (icdcStudy : Study) :
  isGlioma icdcStudy = true ↔ clinical_study_designation icdcStudy = "GLIOMA01".
Proof. unfold isGlioma. apply bool_decide_eq_true. Qed.

Lemma isGlioma_false (icdcStudy : Study) :
  isGlioma icdcStudy = false ↔ clinical_study_designation icdcStudy ≠ "GLIOMA01".
Proof. unfold isGlioma. apply bool_decide_eq_false. Qed.

(** C4. For a collection whose series list is present and a study other
    than GLIOMA01, [getTciaCollectionMetadata] returns.
    [Aggregate_ImageCount] is the sum of the series' [ImageCount] strings
    parsed as integers, added up from the left in double arithmetic; when
    the strings are the decimal numerals of natural numbers whose sum is at
    most [MAX_SAFE_INTEGER], it is that sum exactly. [Aggregate_PatientID]
    is the number of distinct [PatientID] values. *)
Theorem aggregate_counts (collectionId : string)
    (tciaCollectionsData : gmap string (list Series)) (icdcStudy : Study)
    (series : list Series) :
  tciaCollectionsData !! collectionId = Some series →
  clinical_study_designation icdcStudy ≠ "GLIOMA01" →
  ∃ meta,
    getTciaCollectionMetadata collectionId tciaCollectionsData icdcStudy = Ok meta
    ∧ Aggregate_ImageCount meta = sum_of_parsed (ImageCount <$> series)
    ∧ (∀ counts : list N,
         ImageCount <$> series = pretty <$> counts →
         total counts ≤ MAX_SAFE_INTEGER →
         Aggregate_ImageCount meta = Int (total counts))
    ∧ Aggregate_PatientID meta = count_distinct (PatientID <$> series).
Proof.
  intros Hseries Hother. apply isGlioma_false in Hother.
  unfold getTciaCollectionMetadata. rewrite Hseries, Hother.
  eexists. split; [reflexivity|]. simpl.
  split; [apply total_images|]. split; [|apply length_Set_of].
  intros counts Hnumerals Hsafe.
  rewrite total_images, Hnumerals. by apply sum_of_parsed_numerals.
Qed.

(** C5. For GLIOMA01 the metadata lists "Histopathology" among the
    modalities and its image count is the sum of the parsed per-series
    counts plus 84, in double arithmetic; for any other study the
    modalities are the distinct ones of the series in first-seen order and
    the count is that sum. When the counts are the decimal numerals of
    natural numbers and the result is at most [MAX_SAFE_INTEGER], the count
    is their exact sum plus 84 for GLIOMA01, and their exact sum
    otherwise. *)
Theorem glioma_adjustment (collectionId : string)
    (tciaCollectionsData : gmap string (list Series)) (icdcStudy : Study)
    (series : list Series) :
  tciaCollectionsData !! collectionId = Some series →
  ∃ meta,
    getTciaCollectionMetadata collectionId tciaCollectionsData icdcStudy = Ok meta
    ∧ (clinical_study_designation icdcStudy = "GLIOMA01" →
       "Histopathology" ∈ Aggregate_Modality meta
       ∧ Aggregate_ImageCount meta
         = num_add (sum_of_parsed (ImageCount <$> series)) (Int 84)
       ∧ (∀ counts : list N,
            ImageCount <$> series = pretty <$> counts →
            total counts + 84 ≤ MAX_SAFE_INTEGER →
            Aggregate_ImageCount meta = Int (total counts + 84)))
    ∧ (clinical_study_designation icdcStudy ≠ "GLIOMA01" →
       Aggregate_Modality meta = first_seen (Modality <$> series)
       ∧ Aggregate_ImageCount meta = sum_of_parsed (ImageCount <$> series)
       ∧ (∀ counts : list N,
            ImageCount <$> series = pretty <$> counts →
            total counts ≤ MAX_SAFE_INTEGER →
            Aggregate_ImageCount meta = Int (total counts))).
Proof.
  intros Hseries.
  unfold getTciaCollectionMetadata. rewrite Hseries.
  destruct (isGlioma icdcStudy) eqn:Hcase;
    (eexists; split; [reflexivity|]); simpl; rewrite total_images.
  - split.
    + intros _. split; [|split; [done|]].
      * rewrite elem_of_app, list_elem_of_singleton. by right.
      * intros counts Hnumerals Hsafe. pose proof (total_nonneg counts).
        rewrite Hnumerals, sum_of_parsed_numerals by lia. simpl.
        apply roundDouble_safe. lia.
    + intros Hother. apply isGlioma_false in Hother. congruence.
  - split.
    + intros Hspecial. apply isGlioma_true in Hspecial. congruence.
    + intros _. split; [apply Set_of_first_seen|]. split; [done|].
      intros counts Hnumerals Hsafe.
      rewrite Hnumerals. by apply sum_of_parsed_numerals.
Qed.

(** C6, as amended. The body parts are the distinct ones of the series in
    first-seen order, whatever the study. The modalities are the distinct
    ones in first-seen order for a study other than GLIOMA01; for GLIOMA01
    they are followed by one "Histopathology", and the list is free of
    duplicates exactly when no series has that modality already. *)
Theorem distinct_sets (collectionId : string)
    (tciaCollectionsData : gmap string (list Series)) (icdcStudy : Study)
    (series : list Series) :
  tciaCollectionsData !! collectionId = Some series →
  ∃ meta,
    getTciaCollectionMetadata collectionId tciaCollectionsData icdcStudy = Ok meta
    ∧ Aggregate_BodyPartExamined meta = first_seen (BodyPartExamined <$> series)
    ∧ NoDup (Aggregate_BodyPartExamined meta)
    ∧ (clinical_study_designation icdcStudy ≠ "GLIOMA01" →
       Aggregate_Modality meta = first_seen (Modality <$> series)
       ∧ NoDup (Aggregate_Modality meta))
    ∧ (clinical_study_designation icdcStudy = "GLIOMA01" →
       Aggregate_Modality meta
       = first_seen (Modality <$> series) ++ ["Histopathology"]
       ∧ (NoDup (Aggregate_Modality meta)
          ↔ "Histopathology" ∉ Modality <$> series)).
Proof.
  intros Hseries.
  unfold getTciaCollectionMetadata. rewrite Hseries.
  destruct (isGlioma icdcStudy) eqn:Hcase;
    (eexists; split; [reflexivity|]); simpl;
    rewrite !Set_of_first_seen;
    (split; [done|]); (split; [apply NoDup_first_seen|]).
  - split.
    + intros Hother. apply isGlioma_false in Hother. congruence.
    + intros _. split; [done|].
      rewrite NoDup_app, <- elem_of_first_seen. split.
      * intros (_ & Hdisj & _) Hin. apply (Hdisj _ Hin). by left.
      * intros Hout. split_and!; [apply NoDup_first_seen| |apply NoDup_singleton].
        intros x Hx ->%list_elem_of_singleton. done.
  - split.
    + intros _. split; [done | apply NoDup_first_seen].
    + intros Hspecial. apply isGlioma_true in Hspecial. congruence.
Qed.

(** ** The fetchers *)

(** The error with which a request fails, if it fails. *)
Definition failure {A} (answer : response A) : option js_error :=
  match answer with
  | Rejected => Some FetchError
  | Malformed => Some SyntaxError
  | Json _ => None
  end.

Lemma fetch_json_failure {S A} (answer : response A) (e : js_error) (s : S) :
  failure answer = Some e → fetch_json answer s = (Throw e, s).
Proof. destruct answer; intros [= <-]; reflexivity. Qed.

Ltac run := unfold try_catch, mbind, M_bind, mret, M_ret, lift, throw,
  console_error, with_heap; simpl.

Section FilterObjectArray.
Context {A : Type} (property : A -> option string) (key : string).

Lemma filterObjectArray_missing (array : list A) :
  (∃ obj, obj ∈ array ∧ property obj = None) →
  filterObjectArray array property key = Throw TypeError.
Proof.
  intros (obj & Hin & Hnone).
  induction array as [|x array IH]; [by apply elem_of_nil in Hin|].
  simpl. destruct (property x) eqn:Hx; [|done].
  apply elem_of_cons in Hin as [->|Hin]; [congruence|].
  by rewrite IH.
Qed.

(** The property of [obj] is a string that includes the key. *)
Definition propertyIncludes (obj : A) : bool :=
  match property obj with
  | Some value => includes value key
  | None => false
  end.

Lemma filterObjectArray_present (array : list A) :
  Forall (fun obj => is_Some (property obj)) array →
  filterObjectArray array property key
  = Ok (filter (fun obj => propertyIncludes obj) array).
Proof.
  induction 1 as [|x array [value Hx] _ IH]; [done|].
  simpl. rewrite Hx, IH. f_equal.
  destruct (includes value key) eqn:Hinc.
  - rewrite filter_cons_True; [done|].
    unfold propertyIncludes. by rewrite Hx, Hinc.
  - rewrite filter_cons_False; [done|].
    unfold propertyIncludes. rewrite Hx, Hinc. simpl. tauto.
Qed.

Lemma filterObjectArray_kept (array kept : list A) :
  filterObjectArray array property key = Ok kept →
  Forall (fun obj => is_Some (property obj)) kept.
Proof.
  revert kept. induction array as [|x array IH]; intros kept; simpl.
  - intros [= <-]. constructor.
  - destruct (property x) eqn:Hx; [|done].
    destruct (filterObjectArray array property key) as [k|]; [|done].
    intros [= <-]. specialize (IH k eq_refl).
    destruct (includes _ _); [|done]. constructor; [by rewrite Hx | done].
Qed.
End FilterObjectArray.

(** The records returned by [getIdcCollections] are the filtered items,
    one for one. *)
Lemma idcRecord_filtered (array kept : list IdcItem) (key : string) :
  filterObjectArray array item_collection_id key = Ok kept →
  Forall2 (fun item c => item_collection_id item = Some (collection_id c)
                         ∧ item_description item = description c)
          kept (omap idcRecord kept).
Proof.
  intros Hkept%filterObjectArray_kept.
  induction Hkept as [|item kept [id Hid] _ IH]; [constructor|].
  simpl. unfold idcRecord at 1. rewrite Hid. simpl.
  constructor; [by rewrite Hid | exact IH].
Qed.

(** The names returned by [getTciaCollections] are the [Collection] values
    of the filtered items, one for one. *)
Lemma collectionIds_filtered (array kept : list TciaItem) (key : string) :
  filterObjectArray array item_Collection key = Ok kept →
  Some <$> omap item_Collection kept = item_Collection <$> kept.
Proof.
  intros Hkept%filterObjectArray_kept.
  induction Hkept as [|item kept [id Hid] _ IH]; [done|].
  cbn. rewrite Hid. cbn. by rewrite IH.
Qed.

Lemma getIdcCollections_failure (answer : response IdcBody) (e : js_error)
    (console : list js_error) :
  failure answer = Some e →
  getIdcCollections answer console = (Ok [], console ++ [e]).
Proof.
  intros Hfail. unfold getIdcCollections. run.
  by rewrite (fetch_json_failure _ e).
Qed.

Lemma getTciaCollections_failure (answer : response (list TciaItem))
    (e : js_error) (console : list js_error) :
  failure answer = Some e →
  getTciaCollections answer console = (Ok [], console ++ [e]).
Proof.
  intros Hfail. unfold getTciaCollections. run.
  by rewrite (fetch_json_failure _ e).
Qed.


(** None of the three fetchers throws, whatever the answer. *)
Lemma getIdcCollections_returns (answer : response IdcBody)
    (console : list js_error) :
  ∃ idcCollections console',
    getIdcCollections answer console = (Ok idcCollections, console').
Proof.
  unfold getIdcCollections. run.
  destruct answer as [| |body]; simpl; eauto.
  destruct (collections body) as [array|]; eauto.
  destruct (filterObjectArray array item_collection_id "icdc_"); eauto.
Qed.

Lemma getTciaCollections_returns (answer : response (list TciaItem))
    (console : list js_error) :
  ∃ tciaCollections console',
    getTciaCollections answer console = (Ok tciaCollections, console').
Proof.
  unfold getTciaCollections. run.
  destruct answer as [| |array]; simpl; eauto.
  destruct (filterObjectArray array item_Collection "ICDC-"); eauto.
Qed.

Lemma getTciaCollectionData_returns (answer : response (list Series))
    (console : list js_error) :
  ∃ series console',
    getTciaCollectionData answer console = (Ok series, console').
Proof.
  unfold getTciaCollectionData. run.
  destruct answer; simpl; eauto.
Qed.

Lemma getTciaCollectionsData_from_returns
    (series : nat -> string -> response (list Series)) (names : list string)
    (i : nat) (acc : gmap string (list Series)) (console : list js_error) :
  ∃ tciaCollectionsData console',
    getTciaCollectionsData_from series i names acc console
    = (Ok tciaCollectionsData, console').
Proof.
  revert i acc console.
  induction names as [|name names IH]; intros i acc console; simpl.
  - run. eauto.
  - unfold mbind, M_bind.
    destruct (getTciaCollectionData_returns (series i name) console)
      as (d & console' & ->).
    apply IH.
Qed.

(** C10. When one record of a listing lacks the property filtered on, the
    filter throws, the fetcher catches and logs the TypeError and returns
    the empty list: the value it returns on a transport failure. The
    well-formed records of the same response are not returned. *)
Theorem listing_discarded_on_bad_record :
  (∀ (items : list IdcItem) (console : list js_error),
      (∃ item, item ∈ items ∧ item_collection_id item = None) →
      filterObjectArray items item_collection_id "icdc_" = Throw TypeError
      ∧ getIdcCollections (Json {| collections := Some items |}) console
        = (Ok [], console ++ [TypeError])
      ∧ (getIdcCollections (Json {| collections := Some items |}) console).1
        = (getIdcCollections Rejected console).1)
  ∧ (∀ (items : list TciaItem) (console : list js_error),
      (∃ item, item ∈ items ∧ item_Collection item = None) →
      filterObjectArray items item_Collection "ICDC-" = Throw TypeError
      ∧ getTciaCollections (Json items) console
        = (Ok [], console ++ [TypeError])
      ∧ (getTciaCollections (Json items) console).1
        = (getTciaCollections Rejected console).1).
Proof.
  split; intros items console Hbad.
  - pose proof (filterObjectArray_missing _ "icdc_" items Hbad) as Hthrow.
    split; [exact Hthrow|].
    unfold getIdcCollections. run. by rewrite Hthrow.
  - pose proof (filterObjectArray_missing _ "ICDC-" items Hbad) as Hthrow.
    split; [exact Hthrow|].
    unfold getTciaCollections. run. by rewrite Hthrow.
Qed.

(** ** The registry query and the entry point *)

Ltac open_getIcdcStudyData := unfold getIcdcStudyData.
Ltac open_mapExternalDataToStudies := unfold mapExternalDataToStudies.
Ltac open_mapMatchesToStudy := unfold mapMatchesToStudy.
Ltac open_collectMappings := unfold collectMappings.
Ltac open_getIdcCollectionMetadata := unfold getIdcCollectionMetadata.

Section Registry.
Variables IDC_COLLECTION_BASE_URL TCIA_COLLECTION_BASE_URL : string.
Variable BENTO_BACKEND_NOT_CONNECTED : string.
Variable search : string -> list string -> list string.
Variable htmlToText : string -> string.

Local Abbreviation getIcdcStudyData := (getIcdcStudyData BENTO_BACKEND_NOT_CONNECTED).
Local Abbreviation collectMappings :=
  (collectMappings IDC_COLLECTION_BASE_URL TCIA_COLLECTION_BASE_URL search htmlToText).
Local Abbreviation mapExternalDataToStudies :=
  (mapExternalDataToStudies IDC_COLLECTION_BASE_URL TCIA_COLLECTION_BASE_URL
     BENTO_BACKEND_NOT_CONNECTED search htmlToText).

(** C1. When the registry query fails in transport or in parsing,
    [getIcdcStudyData] logs the failure and throws the error that names
    the unreachable backend; [mapExternalDataToStudies] then logs that
    error and hands it to its caller as the value it resolves with, in
    place of any list of mappings. *)
Theorem primary_failure_is_fatal (w : World) (console : list js_error)
    (e : js_error) :
  failure (registry w) = Some e →
  getIcdcStudyData (registry w) console
  = (Throw (Error BENTO_BACKEND_NOT_CONNECTED), console ++ [e])
  ∧ mapExternalDataToStudies w console
    = (Ok (Caught (Error BENTO_BACKEND_NOT_CONNECTED), []),
       console ++ [e; Error BENTO_BACKEND_NOT_CONNECTED])
  ∧ ∀ collectionMappings heap console',
      mapExternalDataToStudies w console
      ≠ (Ok (Mappings collectionMappings, heap), console').
Proof.
  intros Hfail.
  assert (getIcdcStudyData (registry w) console
          = (Throw (Error BENTO_BACKEND_NOT_CONNECTED), console ++ [e])) as Hget.
  { open_getIcdcStudyData. run.
    by rewrite (fetch_json_failure _ e). }
  assert (mapExternalDataToStudies w console
          = (Ok (Caught (Error BENTO_BACKEND_NOT_CONNECTED), []),
             console ++ [e; Error BENTO_BACKEND_NOT_CONNECTED])) as Hmap.
  { open_mapExternalDataToStudies. unfold try_catch, mbind, M_bind.
    rewrite Hget. run. by rewrite <- app_assoc. }
  split_and!; [done..|].
  intros ms heap console'. rewrite Hmap. congruence.
Qed.

Lemma collectMappings_undefined (tciaCollections : list string)
    (tciaCollectionsData : gmap string (list Series))
    (idcCollections : list IdcCollection) :
  collectMappings None tciaCollections tciaCollectionsData idcCollections
  = (Ok [], idcCollections).
Proof. reflexivity. Qed.

(** C8. When the registry answers with a body that has no
    [data.studiesByProgram], [getIcdcStudyData] returns undefined and
    logs nothing; [collectMappings] given undefined returns the empty
    list, and [mapExternalDataToStudies] resolves with the empty list of
    mappings. *)
Theorem missing_studies_tolerated (w : World) (body : RegistryBody)
    (console : list js_error) :
  registry w = Json body →
  data body ≫= studiesByProgram = None →
  getIcdcStudyData (registry w) console = (Ok None, console)
  ∧ (∀ tciaCollections tciaCollectionsData idcCollections,
       collectMappings None tciaCollections tciaCollectionsData idcCollections
       = (Ok [], idcCollections))
  ∧ ∃ heap console',
      mapExternalDataToStudies w console = (Ok (Mappings [], heap), console').
Proof.
  intros Hbody Hnone.
  assert (getIcdcStudyData (registry w) console = (Ok None, console)) as Hget.
  { open_getIcdcStudyData. rewrite Hbody.
    unfold try_catch, mbind at 1, M_bind at 1, fetch_json, mret, M_ret.
    do 2 f_equal. exact Hnone. }
  split_and!; [done | by intros | ].
  open_mapExternalDataToStudies. unfold try_catch, mbind at 1, M_bind at 1.
  rewrite Hget.
  unfold mbind at 1, M_bind at 1.
  destruct (getIdcCollections_returns (idcListing w) console)
    as (idc & c1 & ->).
  unfold mbind at 1, M_bind at 1.
  destruct (getTciaCollections_returns (tciaListing w) c1)
    as (names & c2 & ->).
  unfold mbind at 1, M_bind at 1.
  destruct (getTciaCollectionsData_from_returns (tciaSeries w) names O ∅ c2)
    as (td & c3 & Htd).
  unfold getTciaCollectionsData. rewrite Htd.
  run. eauto.
Qed.
End Registry.

(** ** Matching a study and collecting the mappings *)

Lemma getTciaCollectionMetadata_returns (collectionId : string)
    (tciaCollectionsData : gmap string (list Series)) (icdcStudy : Study)
    (series : list Series) :
  tciaCollectionsData !! collectionId = Some series →
  ∃ meta,
    getTciaCollectionMetadata collectionId tciaCollectionsData icdcStudy = Ok meta.
Proof.
  intros Hseries. unfold getTciaCollectionMetadata. rewrite Hseries.
  destruct (isGlioma icdcStudy); eauto.
Qed.

Lemma hasSeries_true (tciaCollectionsData : gmap string (list Series))
    (name : string) :
  hasSeries tciaCollectionsData name = true
  ↔ ∃ series, tciaCollectionsData !! name = Some series ∧ series ≠ [].
Proof.
  unfold hasSeries. destruct (tciaCollectionsData !! name) as [[|x l]|];
    split; try done; try (intros (series & [= <-] & Hne); done);
    try (intros (series & [=] & _)).
  intros _. by exists (x :: l).
Qed.

Lemma hasSeries_false (tciaCollectionsData : gmap string (list Series))
    (name : string) :
  hasSeries tciaCollectionsData name = false
  ↔ tciaCollectionsData !! name = None ∨ tciaCollectionsData !! name = Some [].
Proof.
  unfold hasSeries. destruct (tciaCollectionsData !! name) as [[|x l]|];
    naive_solver.
Qed.

(** An archive B collection lists series when the data holds a non-empty
    list under its name. *)
Definition listsSeries (tciaCollectionsData : gmap string (list Series))
    (name : string) : Prop :=
  ∃ series, tciaCollectionsData !! name = Some series ∧ series ≠ [].

#[export] Instance listsSeries_dec (tciaCollectionsData : gmap string (list Series))
    (name : string) : Decision (listsSeries tciaCollectionsData name).
Proof.
  unfold listsSeries.
  destruct (tciaCollectionsData !! name) as [[|x l]|].
  - right. by intros (series & [= <-] & Hne).
  - left. by exists (x :: l).
  - right. by intros (series & [=] & _).
Defined.

Lemma append_inv_head (s a b : string) : (s ++ a = s ++ b)%string → a = b.
Proof.
  induction s as [|c s IH]; simpl; [done|]. intros [= Heq]. by apply IH.
Qed.

(** A study qualifies for the output when its node count is above zero. *)
Definition qualifies (study : Study) : Prop :=
  ∃ n, numberOfCRDCNodes study = Some n ∧ 0 < n.

Lemma gt_zero_qualifies (study : Study) :
  gt_zero (numberOfCRDCNodes study) = true ↔ qualifies study.
Proof.
  unfold qualifies, gt_zero. destruct (numberOfCRDCNodes study) as [n|].
  - rewrite Z.ltb_lt. naive_solver.
  - naive_solver.
Qed.

#[export] Instance qualifies_dec (study : Study) : Decision (qualifies study).
Proof.
  destruct (gt_zero (numberOfCRDCNodes study)) eqn:Hgt.
  - left. by apply gt_zero_qualifies.
  - right. intros Hq%gt_zero_qualifies. congruence.
Defined.

Section Matching.
Variables IDC_COLLECTION_BASE_URL TCIA_COLLECTION_BASE_URL : string.
Variable BENTO_BACKEND_NOT_CONNECTED : string.
Variable search : string -> list string -> list string.
Variable htmlToText : string -> string.

(** What the matcher returns is taken from the candidates it is given. *)
Hypothesis search_sub :
  ∀ query candidates x, x ∈ search query candidates → x ∈ candidates.

Local Abbreviation getIdcCollectionMetadata := (getIdcCollectionMetadata htmlToText).
Local Abbreviation mapMatchesToStudy :=
  (mapMatchesToStudy IDC_COLLECTION_BASE_URL TCIA_COLLECTION_BASE_URL search htmlToText).
Local Abbreviation collectMappings :=
  (collectMappings IDC_COLLECTION_BASE_URL TCIA_COLLECTION_BASE_URL search htmlToText).
Local Abbreviation mapExternalDataToStudies :=
  (mapExternalDataToStudies IDC_COLLECTION_BASE_URL TCIA_COLLECTION_BASE_URL
     BENTO_BACKEND_NOT_CONNECTED search htmlToText).

(** The entry pushed for the archive A match [name]: its metadata is the
    first object of the listing that has this id. *)
Definition idc_link (ids : list string) (name : string) (r : MatchResult) : Prop :=
  repository r = IDC
  ∧ url r = (IDC_COLLECTION_BASE_URL ++ name)%string
  ∧ ∃ i, metadata r = IdcMetadata i
         ∧ ids !! i = Some name
         ∧ ∀ j, (j < i)%nat → ids !! j ≠ Some name.

(** The entry pushed for the archive B match [name]. *)
Definition tcia_link (tciaCollectionsData : gmap string (list Series))
    (icdcStudy : Study) (name : string) (r : MatchResult) : Prop :=
  repository r = TCIA
  ∧ url r = (TCIA_COLLECTION_BASE_URL ++ name)%string
  ∧ ∃ meta,
      getTciaCollectionMetadata name tciaCollectionsData icdcStudy = Ok meta
      ∧ metadata r = TciaMeta meta.

Lemma getIdcCollectionMetadata_found (name : string) (icdcStudy : Study)
    (h : list IdcCollection) :
  name ∈ collection_id <$> h →
  ∃ i obj,
    list_find (fun o => collection_id o = name) h = Some (i, obj)
    ∧ getIdcCollectionMetadata name icdcStudy h
      = (Ok i, <[i := {| collection_id := collection_id obj;
                         description :=
                           cleanDescription htmlToText icdcStudy (description obj) |}]> h).
Proof.
  intros (o & -> & Ho)%list_elem_of_fmap.
  destruct (list_find_elem_of (fun o' => collection_id o' = collection_id o) h o)
    as [[i obj] Hfind]; [done..|].
  exists i, obj. split; [done|].
  open_getIdcCollectionMetadata. by rewrite Hfind.
Qed.

Lemma ids_after_update (h : list IdcCollection) (i : nat) (obj : IdcCollection)
    (d : string) :
  h !! i = Some obj →
  collection_id <$> <[i := {| collection_id := collection_id obj;
                              description := d |}]> h
  = collection_id <$> h.
Proof.
  intros Hi. rewrite list_fmap_insert. simpl.
  apply list_insert_id. by rewrite list_lookup_fmap, Hi.
Qed.

(** The bodies of the two loops of [mapMatchesToStudy], named so that the
    loops can be reasoned about one at a time; [mapMatchesToStudy_loops]
    relates them to the function. *)
Definition idcBody (icdcStudy : Study) (match_ : string)
    (collectionUrls : list MatchResult) : M (list IdcCollection) (list MatchResult) :=
  let idcCollectionUrl := (IDC_COLLECTION_BASE_URL ++ match_)%string in
  idcCollectionMetadata ← getIdcCollectionMetadata match_ icdcStudy;
  mret (collectionUrls ++
        [{| repository := IDC;
            url := idcCollectionUrl;
            metadata := IdcMetadata idcCollectionMetadata |}]).

Definition tciaBody (icdcStudy : Study)
    (tciaCollectionsData : gmap string (list Series)) (match_ : string)
    (collectionUrls : list MatchResult) : M (list IdcCollection) (list MatchResult) :=
  if hasSeries tciaCollectionsData match_ then
    let tciaCollectionUrl := (TCIA_COLLECTION_BASE_URL ++ match_)%string in
    tciaCollectionMetadata ←
      lift (getTciaCollectionMetadata match_ tciaCollectionsData icdcStudy);
    mret (collectionUrls ++
          [{| repository := TCIA;
              url := tciaCollectionUrl;
              metadata := TciaMeta tciaCollectionMetadata |}])
  else mret collectionUrls.

Lemma mapMatchesToStudy_loops (icdcStudy : Study) (tciaCollections : list string)
    (tciaCollectionsData : gmap string (list Series)) (h : list IdcCollection) :
  mapMatchesToStudy icdcStudy tciaCollections tciaCollectionsData h
  = match for_in (search (clinical_study_designation icdcStudy)
                         (collection_id <$> h))
                 (idcBody icdcStudy) [] h with
    | (Ok collectionUrls, h') =>
        for_in (search (clinical_study_designation icdcStudy) tciaCollections)
               (tciaBody icdcStudy tciaCollectionsData) collectionUrls h'
    | (Throw e, h') => (Throw e, h')
    end.
Proof.
  open_mapMatchesToStudy.
  destruct (search (clinical_study_designation icdcStudy) (collection_id <$> h));
    destruct (search (clinical_study_designation icdcStudy) tciaCollections);
    reflexivity.
Qed.

Lemma idc_loop (icdcStudy : Study) (matches : list string) :
  ∀ (acc : list MatchResult) (h : list IdcCollection),
    (∀ name, name ∈ matches → name ∈ collection_id <$> h) →
    ∃ rs h',
      for_in matches (idcBody icdcStudy) acc h = (Ok (acc ++ rs), h')
      ∧ Forall2 (idc_link (collection_id <$> h)) matches rs
      ∧ collection_id <$> h' = collection_id <$> h.
Proof.
  induction matches as [|name matches IH]; intros acc h Hsub.
  - exists [], h. simpl. rewrite app_nil_r. by split_and!.
  - destruct (getIdcCollectionMetadata_found name icdcStudy h)
      as (i & obj & Hfind & Hget); [apply Hsub; by left|].
    apply list_find_Some in Hfind as (Hi & Hid & Hfirst).
    pose proof (ids_after_update h i obj
      (cleanDescription htmlToText icdcStudy (description obj)) Hi) as Hids.
    simpl. unfold mbind at 1, M_bind at 1, idcBody at 1.
    unfold mbind at 1, M_bind at 1. rewrite Hget. simpl.
    edestruct (IH (acc ++ [{| repository := IDC;
                              url := (IDC_COLLECTION_BASE_URL ++ name)%string;
                              metadata := IdcMetadata i |}]))
      as (rs & h' & -> & Hrs & Hh').
    { intros n Hn. rewrite Hids. apply Hsub. by right. }
    eexists (_ :: rs), h'. rewrite <- app_assoc. split_and!; [done| |].
    + rewrite Hids in Hrs. constructor; [|done].
      split_and!; [done..|]. exists i. split_and!; [done| |].
      * by rewrite list_lookup_fmap, Hi, <- Hid.
      * intros j Hj. rewrite list_lookup_fmap.
        destruct (h !! j) as [y|] eqn:Hy; [|done].
        simpl. intros [= Hname]. by apply (Hfirst j y).
    + by rewrite Hh'.
Qed.

Lemma tcia_loop (icdcStudy : Study)
    (tciaCollectionsData : gmap string (list Series)) (matches : list string) :
  ∀ (acc : list MatchResult) (h : list IdcCollection),
    ∃ rs,
      for_in matches (tciaBody icdcStudy tciaCollectionsData) acc h
      = (Ok (acc ++ rs), h)
      ∧ Forall2 (tcia_link tciaCollectionsData icdcStudy)
                (filter (fun name => hasSeries tciaCollectionsData name) matches) rs.
Proof.
  induction matches as [|name matches IH]; intros acc h.
  - exists []. simpl. rewrite app_nil_r. by split.
  - simpl. unfold mbind at 1, M_bind at 1, tciaBody at 1.
    destruct (hasSeries tciaCollectionsData name) eqn:Hhas.
    + apply hasSeries_true in Hhas as Hseries.
      destruct Hseries as (series & Hseries & _).
      destruct (getTciaCollectionMetadata_returns name tciaCollectionsData
                  icdcStudy series Hseries) as [meta Hmeta].
      unfold mbind at 1, M_bind at 1, lift. rewrite Hmeta. simpl.
      edestruct IH as (rs & -> & Hrs).
      eexists (_ :: rs). rewrite <- app_assoc. split; [done|].
      rewrite filter_cons_True by (by rewrite Hhas).
      constructor; [|done]. split_and!; [done..|]. by exists meta.
    + simpl. edestruct IH as (rs & -> & Hrs).
      exists rs. split; [done|].
      rewrite filter_cons_False; [done|]. rewrite Hhas. simpl. tauto.
Qed.

Lemma mapMatchesToStudy_returns (icdcStudy : Study) (tciaCollections : list string)
    (tciaCollectionsData : gmap string (list Series)) (h : list IdcCollection) :
  ∃ idcPart tciaPart h',
    mapMatchesToStudy icdcStudy tciaCollections tciaCollectionsData h
    = (Ok (idcPart ++ tciaPart), h')
    ∧ Forall2 (idc_link (collection_id <$> h))
              (search (clinical_study_designation icdcStudy) (collection_id <$> h))
              idcPart
    ∧ Forall2 (tcia_link tciaCollectionsData icdcStudy)
              (filter (fun name => hasSeries tciaCollectionsData name)
                      (search (clinical_study_designation icdcStudy) tciaCollections))
              tciaPart
    ∧ collection_id <$> h' = collection_id <$> h.
Proof.
  rewrite mapMatchesToStudy_loops.
  destruct (idc_loop icdcStudy
              (search (clinical_study_designation icdcStudy) (collection_id <$> h))
              [] h) as (idcPart & h' & -> & Hidc & Hids).
  { intros name. apply search_sub. }
  destruct (tcia_loop icdcStudy tciaCollectionsData
              (search (clinical_study_designation icdcStudy) tciaCollections)
              ([] ++ idcPart) h') as (tciaPart & -> & Htcia).
  exists idcPart, tciaPart, h'. by split_and!.
Qed.
(** C3. Let every archive B name include "ICDC-", as the names kept by
    [getTciaCollections] do, so that none of them names a member of
    [Object.prototype]. Then [mapMatchesToStudy] returns the entries
    of the archive A matches, in the order of the matches, followed by the
    entries of the archive B matches under which the data holds a
    non-empty series list, in the order of the matches. Each such match
    has an entry, and no entry points to an archive B collection whose
    series list is empty or missing. *)
Theorem matches_concatenated (icdcStudy : Study) (tciaCollections : list string)
    (tciaCollectionsData : gmap string (list Series)) (h : list IdcCollection) :
  Forall (fun name => includes name "ICDC-" = true) tciaCollections →
  ∃ idcPart tciaPart h',
    mapMatchesToStudy icdcStudy tciaCollections tciaCollectionsData h
    = (Ok (idcPart ++ tciaPart), h')
    ∧ Forall2 (idc_link (collection_id <$> h))
              (search (clinical_study_designation icdcStudy) (collection_id <$> h))
              idcPart
    ∧ Forall2 (tcia_link tciaCollectionsData icdcStudy)
              (filter (listsSeries tciaCollectionsData)
                      (search (clinical_study_designation icdcStudy) tciaCollections))
              tciaPart
    ∧ (∀ name,
         name ∈ search (clinical_study_designation icdcStudy) tciaCollections →
         listsSeries tciaCollectionsData name →
         ∃ r, r ∈ tciaPart ∧ tcia_link tciaCollectionsData icdcStudy name r)
    ∧ (∀ name r,
         tciaCollectionsData !! name = None ∨ tciaCollectionsData !! name = Some [] →
         r ∈ idcPart ++ tciaPart →
         repository r = TCIA →
         url r ≠ (TCIA_COLLECTION_BASE_URL ++ name)%string).
Proof.
  intros _.
  destruct (mapMatchesToStudy_returns icdcStudy tciaCollections
              tciaCollectionsData h)
    as (idcPart & tciaPart & h' & Hrun & Hidc & Htcia & _).
  rewrite (list_filter_iff _ (listsSeries tciaCollectionsData)) in Htcia
    by (intros name; rewrite Is_true_true; apply hasSeries_true).
  exists idcPart, tciaPart, h'. split_and!; [done..| |].
  - intros name Hmatch Hseries.
    assert (name ∈ filter (listsSeries tciaCollectionsData)
                     (search (clinical_study_designation icdcStudy) tciaCollections))
      as (i & Hi)%list_elem_of_lookup by (by apply list_elem_of_filter).
    destruct (Forall2_lookup_l _ _ _ _ _ Htcia Hi) as (r & Hr & Hlink).
    exists r. split; [by eapply list_elem_of_lookup_2|done].
  - intros name r Hempty [Hr|Hr]%elem_of_app Hrepo Hurl.
    + apply list_elem_of_lookup in Hr as (i & Hi).
      destruct (Forall2_lookup_r _ _ _ _ _ Hidc Hi) as (name' & _ & Hlink).
      destruct Hlink as (Hrepo' & _). congruence.
    + apply list_elem_of_lookup in Hr as (i & Hi).
      destruct (Forall2_lookup_r _ _ _ _ _ Htcia Hi) as (name' & Hname' & Hlink).
      destruct Hlink as (_ & Hurl' & _).
      rewrite Hurl in Hurl'. apply append_inv_head in Hurl' as ->.
      apply list_elem_of_lookup_2, list_elem_of_filter in Hname' as [Hseries _].
      destruct Hseries as (series & Hsome & Hne). naive_solver.
Qed.

(** The mapping pushed for [study]: its own designation and counts, and
    the links [mapMatchesToStudy] returned for it on the listing, whose
    ids are those of [h0]. *)
Definition emitted (h0 : list IdcCollection) (tciaCollections : list string)
    (tciaCollectionsData : gmap string (list Series))
    (study : Study) (m : StudyMapping) : Prop :=
  mapping_clinical_study_designation m = clinical_study_designation study
  ∧ mapping_numberOfCRDCNodes m = numberOfCRDCNodes study
  ∧ mapping_numberOfImageCollections m = numberOfImageCollections study
  ∧ ∃ h h',
      collection_id <$> h = collection_id <$> h0
      ∧ mapMatchesToStudy study tciaCollections tciaCollectionsData h
        = (Ok (CRDCLinks m), h').

(** The body of the loop of [collectMappings]; see [collectMappings_loop]. *)
Definition studyBody (tciaCollections : list string)
    (tciaCollectionsData : gmap string (list Series)) (study : Study)
    (collectionMappings : list StudyMapping)
    : M (list IdcCollection) (list StudyMapping) :=
  collectionUrls ← mapMatchesToStudy study tciaCollections tciaCollectionsData;
  if gt_zero (numberOfCRDCNodes study) then
    mret (collectionMappings ++
          [{| CRDCLinks := collectionUrls;
              mapping_numberOfCRDCNodes := numberOfCRDCNodes study;
              mapping_numberOfImageCollections := numberOfImageCollections study;
              mapping_clinical_study_designation :=
                clinical_study_designation study |}])
  else mret collectionMappings.

Lemma collectMappings_loop (icdcStudies : option (list Study))
    (tciaCollections : list string)
    (tciaCollectionsData : gmap string (list Series)) (h : list IdcCollection) :
  collectMappings icdcStudies tciaCollections tciaCollectionsData h
  = for_in (default [] icdcStudies)
           (studyBody tciaCollections tciaCollectionsData) [] h.
Proof. reflexivity. Qed.

Lemma study_loop (h0 : list IdcCollection) (tciaCollections : list string)
    (tciaCollectionsData : gmap string (list Series)) (studies : list Study) :
  ∀ (acc : list StudyMapping) (h : list IdcCollection),
    collection_id <$> h = collection_id <$> h0 →
    ∃ ms h',
      for_in studies (studyBody tciaCollections tciaCollectionsData) acc h
      = (Ok (acc ++ ms), h')
      ∧ Forall2 (emitted h0 tciaCollections tciaCollectionsData)
                (filter qualifies studies) ms
      ∧ collection_id <$> h' = collection_id <$> h0.
Proof.
  induction studies as [|study studies IH]; intros acc h Hh.
  - exists [], h. simpl. rewrite app_nil_r. by split_and!.
  - destruct (mapMatchesToStudy_returns study tciaCollections
                tciaCollectionsData h)
      as (idcPart & tciaPart & h1 & Hrun & _ & _ & Hh1).
    rewrite Hh in Hh1.
    simpl. unfold mbind at 1, M_bind at 1, studyBody at 1.
    unfold mbind at 1, M_bind at 1. rewrite Hrun.
    destruct (gt_zero (numberOfCRDCNodes study)) eqn:Hgt.
    + edestruct (IH (acc ++ [{| CRDCLinks := idcPart ++ tciaPart;
                                mapping_numberOfCRDCNodes := numberOfCRDCNodes study;
                                mapping_numberOfImageCollections :=
                                  numberOfImageCollections study;
                                mapping_clinical_study_designation :=
                                  clinical_study_designation study |}]) h1 Hh1)
        as (ms & h' & Hloop & Hms & Hh').
      simpl. rewrite Hloop.
      eexists (_ :: ms), h'. rewrite <- app_assoc. split_and!; [done| |done].
      rewrite filter_cons_True by (by apply gt_zero_qualifies).
      constructor; [|done]. split_and!; [done..|]. by exists h, h1.
    + destruct (IH acc h1 Hh1) as (ms & h' & Hloop & Hms & Hh').
      simpl. rewrite Hloop.
      exists ms, h'. split_and!; [done| |done].
      rewrite filter_cons_False; [done|].
      intros Hq%gt_zero_qualifies. congruence.
Qed.

(** C2. [collectMappings] returns one mapping for each study whose
    [numberOfCRDCNodes] is above zero, in the order of the input; the
    mapping carries the study's designation and two counts and the links
    matched for it. A study whose count is absent or not above zero has
    no mapping. *)
Theorem one_mapping_per_linked_study (studies : list Study)
    (tciaCollections : list string)
    (tciaCollectionsData : gmap string (list Series))
    (idcCollections : list IdcCollection) :
  ∃ collectionMappings h',
    collectMappings (Some studies) tciaCollections tciaCollectionsData idcCollections
    = (Ok collectionMappings, h')
    ∧ Forall2 (emitted idcCollections tciaCollections tciaCollectionsData)
              (filter qualifies studies) collectionMappings
    ∧ (∀ study,
         numberOfCRDCNodes study = None ∨ numberOfCRDCNodes study = Some 0 →
         study ∉ filter qualifies studies).
Proof.
  rewrite collectMappings_loop.
  destruct (study_loop idcCollections tciaCollections tciaCollectionsData
              studies [] idcCollections eq_refl)
    as (ms & h' & Hloop & Hms & _).
  exists ms, h'. split_and!; [done..|].
  intros study Hcount [(n & Hn & Hpos) _]%list_elem_of_filter.
  destruct Hcount as [Hc|Hc]; rewrite Hc in Hn; [done|].
  injection Hn as <-. lia.
Qed.


End Matching.

(** ** The description of an archive A collection *)

(** C9, as amended. For a study other than GLIOMA01 the stored description
    is the plain-text conversion of the raw one and nothing more. Cleaning
    the result again converts it a second time, so the description is
    unchanged exactly when the converter leaves its own output unchanged.
    [getIdcCollectionMetadata] stores the converted text in the object it
    found. *)
Theorem description_converted (htmlToText : string -> string)
    (icdcStudy : Study) (raw : string) :
  clinical_study_designation icdcStudy ≠ "GLIOMA01" →
  cleanDescription htmlToText icdcStudy raw = htmlToText raw
  ∧ cleanDescription htmlToText icdcStudy
      (cleanDescription htmlToText icdcStudy raw)
    = htmlToText (htmlToText raw)
  ∧ (cleanDescription htmlToText icdcStudy
       (cleanDescription htmlToText icdcStudy raw)
     = cleanDescription htmlToText icdcStudy raw
     ↔ htmlToText (htmlToText raw) = htmlToText raw)
  ∧ (∀ name h i obj,
       list_find (fun o => collection_id o = name) h = Some (i, obj) →
       getIdcCollectionMetadata htmlToText name icdcStudy h
       = (Ok i, <[i := {| collection_id := collection_id obj;
                          description := htmlToText (description obj) |}]> h)).
Proof.
  intros Hother%isGlioma_false.
  assert (∀ d, cleanDescription htmlToText icdcStudy d = htmlToText d) as Hclean.
  { intros d. unfold cleanDescription. by rewrite Hother. }
  split_and!.
  - apply Hclean.
  - by rewrite !Hclean.
  - by rewrite !Hclean.
  - intros name h i obj Hfind. unfold getIdcCollectionMetadata.
    by rewrite Hfind, Hclean.
Qed.

(** * Sample data *)

Module Sample.

(** A stand-in for the fuzzy matcher: a candidate matches when, case
    ignored, it contains the letters that start the query. *)
Definition lower (c : ascii) : ascii :=
  let n := code c in
  if ((65 <=? n) && (n <=? 90))%N then ascii_of_N (n + 32) else c.

Fixpoint lowercase (s : string) : string :=
  match s with
  | String c r => String (lower c) (lowercase r)
  | EmptyString => EmptyString
  end.

Fixpoint letters (s : string) : string :=
  match s with
  | String c r =>
      let n := code (lower c) in
      if ((97 <=? n) && (n <=? 122))%N then String c (letters r) else EmptyString
  | EmptyString => EmptyString
  end.

Definition search (query : string) (candidates : list string) : list string :=
  filter (fun c => includes (lowercase c) (lowercase (letters query))) candidates.

Lemma search_sub (query : string) (candidates : list string) (x : string) :
  x ∈ search query candidates → x ∈ candidates.
Proof. unfold search. rewrite list_elem_of_filter. tauto. Qed.

(** A converter with two behaviours of html-to-text: tags are removed, and
    the character references for the angle brackets and the ampersand in
    the text between them are decoded. *)
Fixpoint stripTags (inTag : bool) (s : string) : string :=
  match s with
  | String c r =>
      if inTag then stripTags (negb (bool_decide (c = ">"%char))) r
      else if bool_decide (c = "<"%char) then stripTags true r
      else String c (stripTags false r)
  | EmptyString => EmptyString
  end.

Definition matchLiteral (literal s : string) : option nat :=
  if String.prefix literal s then Some (String.length literal) else None.

Definition htmlToText (html : string) : string :=
  replaceAll (matchLiteral "&amp;") "&" O
    (replaceAll (matchLiteral "&gt;") ">" O
       (replaceAll (matchLiteral "&lt;") "<" O (stripTags false html))).

Definition IDC_COLLECTION_BASE_URL : string := "https://idc.example/collections/".
Definition TCIA_COLLECTION_BASE_URL : string := "https://tcia.example/collection/".
Definition BENTO_BACKEND_NOT_CONNECTED : string := "BENTO_BACKEND_NOT_CONNECTED".

Definition glioma : Study :=
  {| clinical_study_designation := "GLIOMA01";
     numberOfImageCollections := Some 2;
     numberOfCRDCNodes := Some 2 |}.

Definition cotc : Study :=
  {| clinical_study_designation := "COTC007B";
     numberOfImageCollections := Some 1;
     numberOfCRDCNodes := Some 1 |}.

Definition unlinked : Study :=
  {| clinical_study_designation := "COTC007B";
     numberOfImageCollections := Some 1;
     numberOfCRDCNodes := Some 0 |}.

Definition uncounted : Study :=
  {| clinical_study_designation := "COTC007B";
     numberOfImageCollections := None;
     numberOfCRDCNodes := None |}.

Definition series (count patient modality part : string) : Series :=
  {| ImageCount := count; PatientID := patient;
     Modality := modality; BodyPartExamined := part |}.

Definition cotcSeries : list Series :=
  [series "10" "p1" "MR" "HEAD"; series "5" "p1" "CT" "HEAD";
   series "7" "p2" "MR" "CHEST"].

Definition gliomaSeries : list Series :=
  [series "3" "g1" "MR" "HEAD"; series "4" "g2" "Histopathology" "HEAD"].

Definition tciaCollections : list string :=
  ["ICDC-Glioma"; "ICDC-COTC007B"; "ICDC-Cotc-Empty"].

Definition tciaCollectionsData : gmap string (list Series) :=
  <["ICDC-Glioma" := gliomaSeries]>
    (<["ICDC-COTC007B" := cotcSeries]> (<["ICDC-Cotc-Empty" := []]> ∅)).

Definition idcCollections : list IdcCollection :=
  [{| collection_id := "icdc_glioma";
      description := "<p>Canine glioma [1] .</p>" |};
   {| collection_id := "icdc_cotc007b";
      description := "&lt;b&gt;COTC&lt;/b&gt; trial" |}].

Definition idcItems : list IdcItem :=
  [{| item_collection_id := Some "icdc_glioma";
      item_description := "<p>Canine glioma [1] .</p>" |};
   {| item_collection_id := None; item_description := "no id" |};
   {| item_collection_id := Some "icdc_cotc007b";
      item_description := "&lt;b&gt;COTC&lt;/b&gt; trial" |}].

Definition tciaItems : list TciaItem :=
  [{| item_Collection := Some "ICDC-Glioma" |};
   {| item_Collection := None |};
   {| item_Collection := Some "ICDC-COTC007B" |}].

Definition registryBody : RegistryBody :=
  {| data := Some {| studiesByProgram := Some [glioma; unlinked; cotc] |} |}.

Definition seriesAnswer (i : nat) (name : string) : response (list Series) :=
  if bool_decide (name = "ICDC-COTC007B") then Json cotcSeries
  else if bool_decide (name = "ICDC-Glioma") then Json gliomaSeries
  else Rejected.

(** The registry and archive B answer; archive A is unreachable. *)
Definition archiveADown : World :=
  {| registry := Json registryBody;
     idcListing := Rejected;
     tciaListing :=
       Json [{| item_Collection := Some "ICDC-Glioma" |};
             {| item_Collection := Some "TCGA-BRCA" |};
             {| item_Collection := Some "ICDC-COTC007B" |}];
     tciaSeries := seriesAnswer |}.

(** The registry is unreachable. *)
Definition registryDown : World :=
  {| registry := Rejected;
     idcListing := Json {| collections := Some idcItems |};
     tciaListing := Json tciaItems;
     tciaSeries := seriesAnswer |}.

(** The registry answers without [data.studiesByProgram]. *)
Definition noStudies : World :=
  {| registry := Json {| data := Some {| studiesByProgram := None |} |};
     idcListing := Json {| collections := Some idcItems |};
     tciaListing := Json tciaItems;
     tciaSeries := seriesAnswer |}.

End Sample.

(** * The properties on the sample data *)

Section OnSamples.
Import Sample.

Local Abbreviation getIcdcStudyData := (getIcdcStudyData BENTO_BACKEND_NOT_CONNECTED).
Local Abbreviation mapMatchesToStudy :=
  (mapMatchesToStudy IDC_COLLECTION_BASE_URL TCIA_COLLECTION_BASE_URL search htmlToText).
Local Abbreviation collectMappings :=
  (collectMappings IDC_COLLECTION_BASE_URL TCIA_COLLECTION_BASE_URL search htmlToText).
Local Abbreviation mapExternalDataToStudies :=
  (mapExternalDataToStudies IDC_COLLECTION_BASE_URL TCIA_COLLECTION_BASE_URL
     BENTO_BACKEND_NOT_CONNECTED search htmlToText).
Local Abbreviation idc_link := (idc_link IDC_COLLECTION_BASE_URL).
Local Abbreviation tcia_link := (tcia_link TCIA_COLLECTION_BASE_URL).
Local Abbreviation emitted :=
  (emitted IDC_COLLECTION_BASE_URL TCIA_COLLECTION_BASE_URL search htmlToText).

(** C1 on a run whose registry request is rejected. *)
Lemma primary_failure_is_fatal_witness :
  getIcdcStudyData (registry registryDown) []
  = (Throw (Error BENTO_BACKEND_NOT_CONNECTED), [FetchError])
  ∧ mapExternalDataToStudies registryDown []
    = (Ok (Caught (Error BENTO_BACKEND_NOT_CONNECTED), []),
       [FetchError; Error BENTO_BACKEND_NOT_CONNECTED])
  ∧ ∀ collectionMappings heap console',
      mapExternalDataToStudies registryDown []
      ≠ (Ok (Mappings collectionMappings, heap), console').
Proof.
  apply (primary_failure_is_fatal IDC_COLLECTION_BASE_URL TCIA_COLLECTION_BASE_URL
           BENTO_BACKEND_NOT_CONNECTED search htmlToText registryDown [] FetchError).
  reflexivity.
Defined.

(** C2 on four studies, two of them without a node count above zero. *)
Lemma one_mapping_per_linked_study_witness :
  ∃ collectionMappings h',
    collectMappings (Some [glioma; unlinked; cotc; uncounted])
      tciaCollections tciaCollectionsData idcCollections
    = (Ok collectionMappings, h')
    ∧ Forall2 (emitted idcCollections tciaCollections tciaCollectionsData)
              (filter qualifies [glioma; unlinked; cotc; uncounted])
              collectionMappings
    ∧ (∀ study,
         numberOfCRDCNodes study = None ∨ numberOfCRDCNodes study = Some 0 →
         study ∉ filter qualifies [glioma; unlinked; cotc; uncounted]).
Proof.
  apply (one_mapping_per_linked_study IDC_COLLECTION_BASE_URL
           TCIA_COLLECTION_BASE_URL search htmlToText).
  intros query candidates x. apply search_sub.
Defined.

Example linked_studies_in_order :
  filter qualifies [glioma; unlinked; cotc; uncounted] = [glioma; cotc].
Proof. reflexivity. Qed.

(** C3 on a study with one archive A match and three archive B matches:
    one with series, one with an empty series list and one that the data
    does not hold. *)
Lemma matches_concatenated_witness :
  search "COTC007B" (tciaCollections ++ ["ICDC-Cotc-Missing"])
  = ["ICDC-COTC007B"; "ICDC-Cotc-Empty"; "ICDC-Cotc-Missing"]
  ∧ tciaCollectionsData !! "ICDC-Cotc-Empty" = Some []
  ∧ tciaCollectionsData !! "ICDC-Cotc-Missing" = None
  ∧ ∃ idcPart tciaPart h',
      mapMatchesToStudy cotc (tciaCollections ++ ["ICDC-Cotc-Missing"])
        tciaCollectionsData idcCollections
      = (Ok (idcPart ++ tciaPart), h')
      ∧ url <$> idcPart = ["https://idc.example/collections/icdc_cotc007b"]
      ∧ url <$> tciaPart = ["https://tcia.example/collection/ICDC-COTC007B"].
Proof.
  split_and!; [vm_compute; reflexivity..|].
  destruct (matches_concatenated IDC_COLLECTION_BASE_URL TCIA_COLLECTION_BASE_URL
              search htmlToText search_sub cotc
              (tciaCollections ++ ["ICDC-Cotc-Missing"])
              tciaCollectionsData idcCollections)
    as (idcPart & tciaPart & h' & Hrun & Hidc & Htcia & _).
  - repeat (constructor; [vm_compute; reflexivity|]). constructor.
  - exists idcPart, tciaPart, h'. split_and!; [exact Hrun | |].
    + match type of Hidc with
      | Forall2 _ ?l _ =>
          assert (l = ["icdc_cotc007b"]) as Hmatches by (vm_compute; reflexivity);
          rewrite Hmatches in Hidc
      end.
      apply Forall2_cons_inv_l in Hidc as (r & rest & Hlink & Hrest & ->).
      apply Forall2_nil_inv_l in Hrest as ->.
      destruct Hlink as (_ & Hurl & _). simpl. rewrite Hurl. reflexivity.
    + match type of Htcia with
      | Forall2 _ ?l _ =>
          assert (l = ["ICDC-COTC007B"]) as Hmatches by (vm_compute; reflexivity);
          rewrite Hmatches in Htcia
      end.
      apply Forall2_cons_inv_l in Htcia as (r & rest & Hlink & Hrest & ->).
      apply Forall2_nil_inv_l in Hrest as ->.
      destruct Hlink as (_ & Hurl & _). simpl. rewrite Hurl. reflexivity.
Defined.

Example matches_of_cotc :
  search "COTC007B" tciaCollections = ["ICDC-COTC007B"; "ICDC-Cotc-Empty"]
  ∧ fst (mapMatchesToStudy cotc tciaCollections tciaCollectionsData idcCollections)
    = Ok [ {| repository := IDC;
              url := "https://idc.example/collections/icdc_cotc007b";
              metadata := IdcMetadata 1 |};
           {| repository := TCIA;
              url := "https://tcia.example/collection/ICDC-COTC007B";
              metadata :=
                TciaMeta {| Collection := "ICDC-COTC007B";
                            Aggregate_PatientID := 2;
                            Aggregate_Modality := ["MR"; "CT"];
                            Aggregate_BodyPartExamined := ["HEAD"; "CHEST"];
                            Aggregate_ImageCount := Int 22 |} |} ].
Proof. split; vm_compute; reflexivity. Qed.

(** C4 on the series with the counts "10" and "5", which add up to 15, and
    on a collection of three series of the patients p1, p1 and p2, which
    are 2 patients. *)
Lemma aggregate_counts_witness :
  (∃ meta,
     getTciaCollectionMetadata "c"
       {["c" := [series "10" "p1" "MR" "HEAD"; series "5" "p1" "MR" "HEAD"]]} cotc
     = Ok meta
     ∧ Aggregate_ImageCount meta = Int 15)
  ∧ (∃ meta,
       getTciaCollectionMetadata "ICDC-COTC007B" tciaCollectionsData cotc = Ok meta
       ∧ Aggregate_ImageCount meta = Int 22
       ∧ Aggregate_PatientID meta = 2%nat).
Proof.
  split.
  - destruct (aggregate_counts "c"
                {["c" := [series "10" "p1" "MR" "HEAD"; series "5" "p1" "MR" "HEAD"]]}
                cotc [series "10" "p1" "MR" "HEAD"; series "5" "p1" "MR" "HEAD"])
      as (meta & Hmeta & _ & Hexact & _).
    + reflexivity.
    + discriminate.
    + exists meta. split; [exact Hmeta|].
      apply (Hexact [10; 5]%N); [vm_compute; reflexivity | vm_compute; discriminate].
  - destruct (aggregate_counts "ICDC-COTC007B" tciaCollectionsData cotc cotcSeries)
      as (meta & Hmeta & _ & Hexact & Hpatients).
    + reflexivity.
    + discriminate.
    + exists meta. split_and!; [exact Hmeta | |].
      * apply (Hexact [10; 5; 7]%N);
          [vm_compute; reflexivity | vm_compute; discriminate].
      * rewrite Hpatients. vm_compute. reflexivity.
Defined.

Example image_count_of_10_and_5 :
  getTciaCollectionMetadata "c"
    {["c" := [series "10" "p1" "MR" "HEAD"; series "5" "p1" "MR" "HEAD"]]} cotc
  = Ok {| Collection := "c";
          Aggregate_PatientID := 1;
          Aggregate_Modality := ["MR"];
          Aggregate_BodyPartExamined := ["HEAD"];
          Aggregate_ImageCount := Int 15 |}.
Proof. vm_compute. reflexivity. Qed.

Example patients_p1_p1_p2 :
  Aggregate_PatientID <$>
    match getTciaCollectionMetadata "c"
            {["c" := [series "1" "p1" "MR" "HEAD"; series "1" "p1" "MR" "HEAD";
                      series "1" "p2" "MR" "HEAD"]]} cotc with
    | Ok meta => Some meta
    | Throw _ => None
    end
  = Some 2%nat.
Proof. vm_compute. reflexivity. Qed.

(** A count that is not a number makes the total NaN. *)
Example image_count_not_a_number :
  Aggregate_ImageCount <$>
    match getTciaCollectionMetadata "c"
            {["c" := [series "10" "p1" "MR" "HEAD"; series "n/a" "p2" "MR" "HEAD"]]}
            cotc with
    | Ok meta => Some meta
    | Throw _ => None
    end
  = Some NaN.
Proof. vm_compute. reflexivity. Qed.

(** C5 on GLIOMA01, whose series count 3 and 4 images, and on another
    study, whose series count 10, 5 and 7. *)
Lemma glioma_adjustment_witness :
  (∃ meta,
     getTciaCollectionMetadata "ICDC-Glioma" tciaCollectionsData glioma = Ok meta
     ∧ "Histopathology" ∈ Aggregate_Modality meta
     ∧ Aggregate_ImageCount meta = Int 91)
  ∧ (∃ meta,
       getTciaCollectionMetadata "ICDC-COTC007B" tciaCollectionsData cotc = Ok meta
       ∧ Aggregate_Modality meta = ["MR"; "CT"]
       ∧ Aggregate_ImageCount meta = Int 22).
Proof.
  split.
  - destruct (glioma_adjustment "ICDC-Glioma" tciaCollectionsData glioma gliomaSeries)
      as (meta & Hmeta & Hspecial & _).
    + reflexivity.
    + exists meta. destruct (Hspecial eq_refl) as (Hin & _ & Hexact).
      split_and!; [exact Hmeta | exact Hin |].
      apply (Hexact [3; 4]%N); [vm_compute; reflexivity | vm_compute; discriminate].
  - destruct (glioma_adjustment "ICDC-COTC007B" tciaCollectionsData cotc cotcSeries)
      as (meta & Hmeta & _ & Hother).
    + reflexivity.
    + exists meta. destruct Hother as (Hmodalities & _ & Hexact); [discriminate|].
      split_and!; [exact Hmeta | exact Hmodalities |].
      apply (Hexact [10; 5; 7]%N);
        [vm_compute; reflexivity | vm_compute; discriminate].
Defined.

(** Beyond [MAX_SAFE_INTEGER] the sums are those of doubles: the numeral of
    2^53 + 1 parses to 2^53, and 84 added to 2^60 is lost in the
    rounding. *)
Example image_counts_beyond_safe :
  parseInt "9007199254740993" = Int 9007199254740992
  ∧ Aggregate_ImageCount <$>
      match getTciaCollectionMetadata "c"
              {["c" := [series "1152921504606846976" "g1" "MR" "HEAD"]]} glioma with
      | Ok meta => Some meta
      | Throw _ => None
      end
    = Some (Int 1152921504606846976)
  ∧ Aggregate_ImageCount <$>
      match getTciaCollectionMetadata "c"
              {["c" := [series "9007199254740993" "g1" "MR" "HEAD"]]} glioma with
      | Ok meta => Some meta
      | Throw _ => None
      end
    = Some (Int 9007199254741076).
Proof. split_and!; vm_compute; reflexivity. Qed.

(** C6 as stated fails for GLIOMA01 when a series of the collection has
    the modality "Histopathology": the appended entry repeats it. *)
Lemma modality_repeated_for_glioma :
  ∃ meta,
    getTciaCollectionMetadata "ICDC-Glioma" tciaCollectionsData glioma = Ok meta
    ∧ Aggregate_Modality meta = ["MR"; "Histopathology"; "Histopathology"]
    ∧ ¬ NoDup (Aggregate_Modality meta).
Proof.
  eexists. split; [vm_compute; reflexivity|]. split; [reflexivity|].
  simpl. intros Hnd.
  apply NoDup_cons in Hnd as [_ Hnd].
  apply NoDup_cons in Hnd as [Hin _].
  apply Hin. by left.
Qed.

(** C6 as amended, on a study other than GLIOMA01. *)
Lemma distinct_sets_witness :
  ∃ meta,
    getTciaCollectionMetadata "ICDC-COTC007B" tciaCollectionsData cotc = Ok meta
    ∧ Aggregate_BodyPartExamined meta = ["HEAD"; "CHEST"]
    ∧ Aggregate_Modality meta = ["MR"; "CT"]
    ∧ NoDup (Aggregate_Modality meta)
    ∧ NoDup (Aggregate_BodyPartExamined meta).
Proof.
  destruct (distinct_sets "ICDC-COTC007B" tciaCollectionsData cotc cotcSeries)
    as (meta & Hmeta & Hparts & Hnd & Hother & _).
  - reflexivity.
  - exists meta. destruct Hother as [Hmod Hnd']; [discriminate|].
    split_and!; [exact Hmeta | exact Hparts | exact Hmod | exact Hnd' | exact Hnd].
Defined.


(** The mappings of that run hold the archive B links alone. *)
Example archive_b_alone :
  (fst <$>
     match mapExternalDataToStudies archiveADown [] with
     | (Ok value, _) => Some value
     | (Throw _, _) => None
     end)
  = Some (Mappings
      [ {| CRDCLinks :=
             [ {| repository := TCIA;
                  url := "https://tcia.example/collection/ICDC-Glioma";
                  metadata :=
                    TciaMeta {| Collection := "ICDC-Glioma";
                                Aggregate_PatientID := 2;
                                Aggregate_Modality :=
                                  ["MR"; "Histopathology"; "Histopathology"];
                                Aggregate_BodyPartExamined := ["HEAD"];
                                Aggregate_ImageCount := Int 91 |} |} ];
           mapping_numberOfCRDCNodes := Some 2;
           mapping_numberOfImageCollections := Some 2;
           mapping_clinical_study_designation := "GLIOMA01" |};
        {| CRDCLinks :=
             [ {| repository := TCIA;
                  url := "https://tcia.example/collection/ICDC-COTC007B";
                  metadata :=
                    TciaMeta {| Collection := "ICDC-COTC007B";
                                Aggregate_PatientID := 2;
                                Aggregate_Modality := ["MR"; "CT"];
                                Aggregate_BodyPartExamined := ["HEAD"; "CHEST"];
                                Aggregate_ImageCount := Int 22 |} |} ];
           mapping_numberOfCRDCNodes := Some 1;
           mapping_numberOfImageCollections := Some 1;
           mapping_clinical_study_designation := "COTC007B" |} ]).
Proof. vm_compute. reflexivity. Qed.

(** C8 on a run whose registry answers without the study list. *)
Lemma missing_studies_tolerated_witness :
  getIcdcStudyData (registry noStudies) [] = (Ok None, [])
  ∧ ∃ heap console',
      mapExternalDataToStudies noStudies [] = (Ok (Mappings [], heap), console').
Proof.
  destruct (missing_studies_tolerated IDC_COLLECTION_BASE_URL
              TCIA_COLLECTION_BASE_URL BENTO_BACKEND_NOT_CONNECTED search htmlToText
              noStudies {| data := Some {| studiesByProgram := None |} |} [])
    as (Hget & _ & Hrun).
  - reflexivity.
  - reflexivity.
  - split; [exact Hget | exact Hrun].
Defined.

(** C9 as stated fails on a description whose markup is escaped: the first
    conversion decodes it into tags, the second removes them. *)
Lemma description_converted_twice_differs :
  clinical_study_designation cotc ≠ "GLIOMA01"
  ∧ cleanDescription htmlToText cotc "&lt;b&gt;COTC&lt;/b&gt; trial"
    = "<b>COTC</b> trial"
  ∧ cleanDescription htmlToText cotc
      (cleanDescription htmlToText cotc "&lt;b&gt;COTC&lt;/b&gt; trial")
    = "COTC trial"
  ∧ cleanDescription htmlToText cotc
      (cleanDescription htmlToText cotc "&lt;b&gt;COTC&lt;/b&gt; trial")
    ≠ cleanDescription htmlToText cotc "&lt;b&gt;COTC&lt;/b&gt; trial".
Proof. split_and!; [discriminate | reflexivity | reflexivity | discriminate]. Qed.

(** The second conversion happens in a run: the objects of the listing are
    shared, so the description a first study has converted is converted
    again when a second study matches the same collection. *)
Example description_converted_per_match :
  snd (collectMappings (Some [unlinked]) tciaCollections tciaCollectionsData
         idcCollections) !! 1%nat
  = Some {| collection_id := "icdc_cotc007b"; description := "<b>COTC</b> trial" |}
  ∧ snd (collectMappings (Some [unlinked; cotc]) tciaCollections tciaCollectionsData
           idcCollections) !! 1%nat
    = Some {| collection_id := "icdc_cotc007b"; description := "COTC trial" |}.
Proof. split; vm_compute; reflexivity. Qed.

(** The clean-up of the special case. *)
Example description_of_glioma :
  cleanDescription htmlToText glioma "<p>Canine glioma [1] .</p> ICDC-Glioma data"
  = "Canine glioma. data".
Proof. vm_compute. reflexivity. Qed.

(** C9 as amended, on the same description. *)
Lemma description_converted_witness :
  cleanDescription htmlToText cotc "&lt;b&gt;COTC&lt;/b&gt; trial"
  = htmlToText "&lt;b&gt;COTC&lt;/b&gt; trial"
  ∧ cleanDescription htmlToText cotc
      (cleanDescription htmlToText cotc "&lt;b&gt;COTC&lt;/b&gt; trial")
    = htmlToText (htmlToText "&lt;b&gt;COTC&lt;/b&gt; trial").
Proof.
  destruct (description_converted htmlToText cotc "&lt;b&gt;COTC&lt;/b&gt; trial")
    as (Honce & Htwice & _).
  - discriminate.
  - split; [exact Honce | exact Htwice].
Defined.

(** C10 on listings with one record that lacks the property. *)
Lemma listing_discarded_on_bad_record_witness :
  getIdcCollections (Json {| collections := Some idcItems |}) []
  = (Ok [], [TypeError])
  ∧ getTciaCollections (Json tciaItems) [] = (Ok [], [TypeError]).
Proof.
  destruct listing_discarded_on_bad_record as [Hidc Htcia].
  split.
  - destruct (Hidc idcItems []) as (_ & Hrun & _); [|exact Hrun].
    exists {| item_collection_id := None; item_description := "no id" |}.
    split; [|reflexivity]. right. left.
  - destruct (Htcia tciaItems []) as (_ & Hrun & _); [|exact Hrun].
    exists {| item_Collection := None |}.
    split; [|reflexivity]. right. left.
Defined.

(** Without the bad record the same listings are returned filtered. *)
Example listing_without_bad_record :
  fst (getIdcCollections
         (Json {| collections :=
                    Some [ {| item_collection_id := Some "icdc_glioma";
                              item_description := "d" |};
                           {| item_collection_id := Some "tcga_brca";
                              item_description := "e" |} ] |}) [])
  = Ok [ {| collection_id := "icdc_glioma"; description := "d" |} ]
  ∧ fst (getTciaCollections (tciaListing archiveADown) [])
    = Ok ["ICDC-Glioma"; "ICDC-COTC007B"].
Proof. split; reflexivity. Qed.

End OnSamples.

(** * Further properties *)

(** ** utils/arrayUtils.js *)

Lemma filterObjectArray_cases {A} (array : list A)
    (property : A -> option string) (key : string) :
  match filterObjectArray array property key with
  | Ok kept =>
      Forall (fun obj => is_Some (property obj)) array
      ∧ kept = filter (fun obj => propertyIncludes property key obj) array
  | Throw e =>
      e = TypeError ∧ ∃ obj, obj ∈ array ∧ property obj = None
  end.
Proof.
  destruct (decide (Forall (fun obj => is_Some (property obj)) array))
    as [Hall|Hsome].
  - by rewrite filterObjectArray_present.
  - apply not_Forall_Exists in Hsome; [|apply _].
    apply Exists_exists in Hsome as (obj & Hin & Hnone%eq_None_not_Some).
    rewrite filterObjectArray_missing; [|by exists obj].
    split; [done|]. by exists obj.
Qed.

(** X1. [filterObjectArray] returns exactly when every record has the
    property, with the records whose property includes the key, in their
    order; it throws a TypeError exactly when some record lacks the
    property. *)
Theorem filterObjectArray_outcome {A} (array : list A)
    (property : A -> option string) (key : string) :
  match filterObjectArray array property key with
  | Ok kept =>
      Forall (fun obj => is_Some (property obj)) array
      ∧ kept = filter (fun obj => propertyIncludes property key obj) array
  | Throw e =>
      e = TypeError ∧ ∃ obj, obj ∈ array ∧ property obj = None
  end.
Proof. apply filterObjectArray_cases. Qed.

(** X2. Filtering what [filterObjectArray] has returned, by the same property
    and key, returns it unchanged; every record returned has the property,
    with a value that includes the key. *)
Theorem filterObjectArray_again {A} (array kept : list A)
    (property : A -> option string) (key : string) :
  filterObjectArray array property key = Ok kept →
  filterObjectArray kept property key = Ok kept
  ∧ sublist kept array
  ∧ ∀ obj, obj ∈ kept →
      ∃ value, property obj = Some value ∧ includes value key = true.
Proof.
  intros Hkept.
  pose proof (filterObjectArray_cases array property key) as Hout.
  rewrite Hkept in Hout. destruct Hout as [Hall ->].
  assert (∀ obj, obj ∈ filter (fun obj => propertyIncludes property key obj) array →
            ∃ value, property obj = Some value ∧ includes value key = true) as Hin.
  { intros obj [Hinc _]%list_elem_of_filter. unfold propertyIncludes in Hinc.
    destruct (property obj) as [value|]; [|done].
    exists value. split; [done|]. by destruct (includes value key). }
  split_and!; [|apply sublist_filter|exact Hin].
  rewrite filterObjectArray_present.
  - f_equal. rewrite list_filter_filter. apply list_filter_iff. tauto.
  - apply Forall_forall. intros obj (value & -> & _)%Hin. by eexists.
Qed.

(** [filterObjectArrayByProps]: an object is the finite map of its own
    enumerable properties; [Object.keys(item)] lists the names of the map
    and [item[key]] reads one of them. *)

(** [Object.assign(obj, { [key]: value })]: the one property of the source
    is assigned to the target. For the key [__proto__] the assignment runs
    the setter inherited from [Object.prototype], which adds no own
    property. *)
Definition Object_assign {V} (obj : gmap string V) (key : string) (value : V)
    : gmap string V :=
  if decide (key = "__proto__") then obj else <[key := value]> obj.

Definition filterObjectArrayByProps {V} (array : list (gmap string V))
    (targetProps : list string) : list (gmap string V) :=
  (fun item =>
     reduce (fun obj key =>
               match item !! key with
               | Some value => Object_assign obj key value
               | None => obj
               end)
            ∅
            (filter (fun key => key ∈ targetProps) (map_to_list item).*1))
  <$> array.

Lemma lookup_assign_keys {V} (item : gmap string V) (keys : list string)
    (obj : gmap string V) (k : string) :
  foldl (fun obj key =>
           match item !! key with
           | Some value => Object_assign obj key value
           | None => obj
           end) obj keys !! k
  = if decide (k ∈ keys ∧ k ≠ "__proto__" ∧ is_Some (item !! k))
    then item !! k else obj !! k.
Proof.
  revert obj. induction keys as [|key keys IH]; intros obj; simpl.
  - done.
  - rewrite IH.
    destruct (decide (k ∈ keys ∧ k ≠ "__proto__" ∧ is_Some (item !! k)))
      as [(Hk & Hown & Hv)|Hno].
    + rewrite decide_True; [done|]. split; [by right|done].
    + destruct (decide (k = key)) as [->|Hne].
      * destruct (item !! key) as [value|] eqn:Hitem.
        -- unfold Object_assign.
           destruct (decide (key = "__proto__")) as [Hproto|Hown].
           ++ rewrite decide_False; [done|]. by intros (_ & ? & _).
           ++ rewrite lookup_insert_eq, decide_True; [done|].
              split_and!; [by left|done|by eexists].
        -- rewrite decide_False; [done|]. intros (_ & _ & []). done.
      * rewrite decide_False.
        -- destruct (item !! key) as [value|]; [|done].
           unfold Object_assign. destruct (decide (key = "__proto__")); [done|].
           by rewrite lookup_insert_ne.
        -- intros ([?|Hin]%elem_of_cons & Hown & Hv); [done|]. by apply Hno.
Qed.

Lemma filterObjectArrayByProps_item {V} (array : list (gmap string V))
    (targetProps : list string) :
  List.length (filterObjectArrayByProps array targetProps) = List.length array
  ∧ ∀ i item, array !! i = Some item →
      ∃ obj, filterObjectArrayByProps array targetProps !! i = Some obj
             ∧ ∀ k, obj !! k
                    = if decide (k ∈ targetProps ∧ k ≠ "__proto__")
                      then item !! k else None.
Proof.
  unfold filterObjectArrayByProps. split; [by rewrite length_fmap|].
  intros i item Hitem. rewrite list_lookup_fmap, Hitem. simpl.
  eexists. split; [reflexivity|]. intros k.
  unfold reduce. rewrite lookup_assign_keys, lookup_empty.
  destruct (decide (k ∈ targetProps ∧ k ≠ "__proto__")) as [[Hin Hown]|Hout].
  - destruct (item !! k) as [value|] eqn:Hk.
    + rewrite decide_True; [done|]. split_and!; [|done|by eexists].
      apply list_elem_of_filter. split; [done|].
      apply list_elem_of_fmap. exists (k, value). split; [done|].
      by apply elem_of_map_to_list.
    + rewrite decide_False; [done|]. intros (_ & _ & []). done.
  - rewrite decide_False; [done|].
    intros ([? _]%list_elem_of_filter & ? & _). by apply Hout.
Qed.

(** X3. [filterObjectArrayByProps] returns as many objects as it is given.
    Each has, of the object at the same position of the input, the own
    properties named in [targetProps] with their values, except
    [__proto__], and no other own property. *)
Theorem filterObjectArrayByProps_lookup {V} (array : list (gmap string V))
    (targetProps : list string) :
  List.length (filterObjectArrayByProps array targetProps) = List.length array
  ∧ ∀ i item, array !! i = Some item →
      ∃ obj, filterObjectArrayByProps array targetProps !! i = Some obj
             ∧ ∀ k, obj !! k
                    = if decide (k ∈ targetProps ∧ k ≠ "__proto__")
                      then item !! k else None.
Proof. apply filterObjectArrayByProps_item. Qed.

Lemma filter_all {A} (P : A -> Prop) `{!∀ x, Decision (P x)} (l : list A) :
  (∀ x, x ∈ l → P x) → filter P l = l.
Proof.
  induction l as [|x l IH]; intros Hall; [done|].
  rewrite filter_cons_True by (apply Hall; by left).
  f_equal. apply IH. intros y Hy. apply Hall. by right.
Qed.

(** X4. Selecting [inner] and then [outer] selects the properties named in
    both; selecting the same properties twice changes nothing more. *)
Theorem filterObjectArrayByProps_twice {V} (array : list (gmap string V))
    (inner outer : list string) :
  filterObjectArrayByProps (filterObjectArrayByProps array inner) outer
  = filterObjectArrayByProps array (filter (fun key => key ∈ inner) outer)
  ∧ filterObjectArrayByProps (filterObjectArrayByProps array inner) inner
    = filterObjectArrayByProps array inner.
Proof.
  assert (∀ p q, filterObjectArrayByProps (filterObjectArrayByProps array q) p
                 = filterObjectArrayByProps array (filter (fun key => key ∈ q) p))
    as Hcompose.
  { intros p q. apply list_eq. intros i.
    destruct (array !! i) as [item|] eqn:Hitem.
    - destruct (filterObjectArrayByProps_item array q) as [_ Hq].
      destruct (Hq i item Hitem) as (mid & Hmid & Hmidk).
      destruct (filterObjectArrayByProps_item (filterObjectArrayByProps array q) p)
        as [_ Hp].
      destruct (Hp i mid Hmid) as (obj & -> & Hobjk).
      destruct (filterObjectArrayByProps_item array
                  (filter (fun key => key ∈ q) p)) as [_ Hpq].
      destruct (Hpq i item Hitem) as (obj' & -> & Hobjk').
      f_equal. apply map_eq. intros k. rewrite Hobjk, Hobjk', Hmidk.
      destruct (decide (k ∈ p ∧ k ≠ "__proto__")) as [[Hp' Hown]|Hp'],
               (decide (k ∈ q ∧ k ≠ "__proto__")) as [[Hq' _]|Hq'].
      + rewrite decide_True; [done|]. split; [|done].
        by apply list_elem_of_filter.
      + rewrite decide_False; [done|].
        intros [[? _]%list_elem_of_filter ?]. by apply Hq'.
      + rewrite decide_False; [done|].
        intros [[_ ?]%list_elem_of_filter ?]. by apply Hp'.
      + rewrite decide_False; [done|].
        intros [[_ ?]%list_elem_of_filter ?]. by apply Hp'.
    - unfold filterObjectArrayByProps. by rewrite !list_lookup_fmap, Hitem. }
  split; [apply Hcompose|].
  rewrite Hcompose. f_equal. by apply filter_all.
Qed.

(** ** config.js *)

(** The values the configuration object holds: an environment variable is a
    string or undefined, and the default of [date] is a [Date]. *)
Inductive config_value :=
| Undefined
| Text (s : string)
| DateValue (time : Z).

(** [!value] is false for a non-empty string and for any object. *)
Definition truthy (value : config_value) : bool :=
  match value with
  | Undefined => false
  | Text s => negb (bool_decide (s = ""))
  | DateValue _ => true
  end.

(** An object whose property order matters: the properties in insertion
    order, each name once. The names are those of variables, none of them
    an array index, so [Object.keys] lists them in this order. *)
Definition object : Type := list (string * config_value).

(** [Object.keys(o)] *)
Definition keys (o : object) : list string := o.*1.

(** [o[key]] *)
Fixpoint getProperty (o : object) (key : string) : config_value :=
  match o with
  | (k, value) :: rest => if bool_decide (k = key) then value else getProperty rest key
  | [] => Undefined
  end.

(** [o[key] = value]: an existing property keeps its place, a new one goes
    last. *)
Fixpoint setProperty (o : object) (key : string) (value : config_value) : object :=
  match o with
  | (k, old) :: rest =>
      if bool_decide (k = key) then (k, value) :: rest
      else (k, old) :: setProperty rest key value
  | [] => [(key, value)]
  end.

(** [now] is the time [new Date()] reads. The state is the object, which
    the function changes in place. *)
Definition scanConfigObject (now : Z) : M object unit :=
  fun configObject =>
    let configObject :=
      if negb (truthy (getProperty configObject "VERSION"))
      then setProperty configObject "version" (Text "Version not set!")
      else configObject in
    let configObject :=
      if negb (truthy (getProperty configObject "DATE"))
      then setProperty configObject "date" (DateValue now)
      else configObject in
    let unsetVars := [] in
    let filteredKeys :=
      filter (fun key => key ∉ ["DATE"; "VERSION"]) (keys configObject) in
    let unsetVars :=
      reduce (fun unsetVars key =>
                if negb (truthy (getProperty configObject key))
                then unsetVars ++ [key] else unsetVars)
             unsetVars filteredKeys in
    if negb (List.length unsetVars =? 0)%nat then
      (Throw (Error ("The following environment variables are not set: "
                     ++ String.concat ", " unsetVars)%string),
       configObject)
    else (Ok tt, configObject).

(** The object [config] of the module, built from the environment. *)
Record Env := {
  env_VERSION : config_value;
  env_DATE : config_value;
  env_BENTO_BACKEND_GRAPHQL_URI : config_value;
}.

Definition config (env : Env) : object :=
  [("VERSION", env_VERSION env);
   ("DATE", env_DATE env);
   ("BENTO_BACKEND_GRAPHQL_URI", env_BENTO_BACKEND_GRAPHQL_URI env)].


Lemma getProperty_setProperty (o : object) (key key' : string) (value : config_value) :
  getProperty (setProperty o key value) key'
  = if bool_decide (key = key') then value else getProperty o key'.
Proof.
  induction o as [|[k old] o IH]; simpl.
  - done.
  - destruct (bool_decide (k = key)) eqn:Hk; simpl.
    + apply bool_decide_eq_true in Hk as ->. by destruct (bool_decide (key = key')).
    + rewrite IH. destruct (bool_decide (k = key')) eqn:Hk'; [|done].
      apply bool_decide_eq_true in Hk' as ->.
      apply bool_decide_eq_false in Hk.
      rewrite bool_decide_eq_false_2; [done|congruence].
Qed.

Lemma keys_setProperty (o : object) (key : string) (value : config_value) :
  keys (setProperty o key value)
  = if decide (key ∈ keys o) then keys o else keys o ++ [key].
Proof.
  unfold keys. induction o as [|[k old] o IH]; csimpl; [done|].
  destruct (bool_decide (k = key)) eqn:Hk; csimpl.
  - apply bool_decide_eq_true in Hk as ->. rewrite decide_True; [done|by left].
  - apply bool_decide_eq_false in Hk. rewrite IH.
    destruct (decide (key ∈ o.*1)) as [Hin|Hout].
    + rewrite decide_True; [done|by right].
    + rewrite decide_False; [done|]. intros [?|?]%elem_of_cons; done.
Qed.

(** The object [scanConfigObject] leaves behind. *)
Definition withDefaults (now : Z) (o : object) : object :=
  let o1 :=
    if negb (truthy (getProperty o "VERSION"))
    then setProperty o "version" (Text "Version not set!") else o in
  if negb (truthy (getProperty o1 "DATE"))
  then setProperty o1 "date" (DateValue now) else o1.

(** The names [scanConfigObject] reports: those other than DATE and
    VERSION whose value is falsy. *)
Definition unset (o : object) (key : string) : Prop :=
  (key ∉ ["DATE"; "VERSION"]) ∧ (truthy (getProperty o key) = false).

#[export] Instance unset_dec (o : object) (key : string) : Decision (unset o key).
Proof. unfold unset. apply _. Defined.

Lemma push_if_filter {A} (P : A -> bool) (l acc : list A) :
  foldl (fun acc x => if P x then acc ++ [x] else acc) acc l
  = acc ++ filter (fun x => P x = true) l.
Proof.
  revert acc. induction l as [|x l IH]; intros acc; simpl.
  - by rewrite app_nil_r.
  - rewrite IH. destruct (P x) eqn:Hx.
    + rewrite filter_cons_True by done. by rewrite <- app_assoc.
    + rewrite filter_cons_False; [done|]. congruence.
Qed.

Lemma scanConfigObject_run (now : Z) (o : object) :
  scanConfigObject now o
  = (match filter (unset (withDefaults now o)) (keys (withDefaults now o)) with
     | [] => Ok tt
     | unsetVars =>
         Throw (Error ("The following environment variables are not set: "
                       ++ String.concat ", " unsetVars)%string)
     end,
     withDefaults now o).
Proof.
  unfold scanConfigObject. fold (withDefaults now o).
  set (o' := withDefaults now o).
  unfold reduce. rewrite push_if_filter. simpl.
  rewrite list_filter_filter.
  assert (filter (fun x => negb (truthy (getProperty o' x)) = true
                           ∧ x ∉ ["DATE"; "VERSION"]) (keys o')
          = filter (unset o') (keys o')) as ->.
  { apply list_filter_iff. intros key. unfold unset.
    rewrite negb_true_iff. tauto. }
  by destruct (filter (unset o') (keys o')).
Qed.

(** X5. [scanConfigObject] never writes [VERSION] or [DATE]: it stores the
    defaults under the names [version] and [date], and leaves every other
    property as it was, whether it returns or throws. *)
Theorem scanConfigObject_defaults (now : Z) (o : object) :
  let o' := (scanConfigObject now o).2 in
  (∀ key, key ≠ "version" → key ≠ "date" → getProperty o' key = getProperty o key)
  ∧ getProperty o' "version"
    = (if truthy (getProperty o "VERSION") then getProperty o "version"
       else Text "Version not set!")
  ∧ getProperty o' "date"
    = (if truthy (getProperty o "DATE") then getProperty o "date"
       else DateValue now).
Proof.
  rewrite scanConfigObject_run. simpl. unfold withDefaults.
  assert (∀ key, key ≠ "version" →
            getProperty (if negb (truthy (getProperty o "VERSION"))
                         then setProperty o "version" (Text "Version not set!")
                         else o) key
            = getProperty o key) as Hfirst.
  { intros key Hkey. destruct (truthy (getProperty o "VERSION")); simpl; [done|].
    rewrite getProperty_setProperty. by rewrite bool_decide_eq_false_2. }
  rewrite (Hfirst "DATE") by done.
  split_and!.
  - intros key Hv Hd.
    destruct (truthy (getProperty o "DATE")); simpl.
    + by apply Hfirst.
    + rewrite getProperty_setProperty, bool_decide_eq_false_2 by done.
      by apply Hfirst.
  - destruct (truthy (getProperty o "DATE")); simpl;
      [|rewrite getProperty_setProperty, bool_decide_eq_false_2 by done];
      destruct (truthy (getProperty o "VERSION")); simpl; try done;
      by rewrite getProperty_setProperty.
  - destruct (truthy (getProperty o "DATE")); simpl.
    + by apply Hfirst.
    + by rewrite getProperty_setProperty.
Qed.

Lemma filter_ext_in {A} (P Q : A -> Prop) `{!∀ x, Decision (P x)}
    `{!∀ x, Decision (Q x)} (l : list A) :
  (∀ x, x ∈ l → P x ↔ Q x) → filter P l = filter Q l.
Proof.
  induction l as [|x l IH]; intros Hext; [done|].
  rewrite !filter_cons, IH by (intros y Hy; apply Hext; by right).
  destruct (decide (P x)) as [HP|HP], (decide (Q x)) as [HQ|HQ]; try done.
  - destruct HQ. apply Hext; [by left|done].
  - destruct HP. apply Hext; [by left|done].
Qed.

Lemma unset_after_default (o : object) (key : string) (value : config_value) :
  key ∉ keys o → truthy value = true →
  keys (setProperty o key value) = keys o ++ [key]
  ∧ filter (unset (setProperty o key value)) (keys (setProperty o key value))
    = filter (unset o) (keys o).
Proof.
  intros Hnew Htruthy.
  rewrite keys_setProperty, decide_False by done. split; [done|].
  rewrite filter_app, filter_cons_False, filter_nil, app_nil_r.
  - apply filter_ext_in. intros x Hx. unfold unset.
    rewrite getProperty_setProperty, bool_decide_eq_false_2; [done|].
    intros ->. done.
  - unfold unset. rewrite getProperty_setProperty, bool_decide_eq_true_2 by done.
    intros [_ ?]. congruence.
Qed.

Lemma unset_withDefaults (now : Z) (o : object) :
  "version" ∉ keys o → "date" ∉ keys o →
  filter (unset (withDefaults now o)) (keys (withDefaults now o))
  = filter (unset o) (keys o).
Proof.
  intros Hversion Hdate. unfold withDefaults.
  destruct (unset_after_default o "version" (Text "Version not set!") Hversion eq_refl)
    as [Hkeys Hfilter].
  destruct (truthy (getProperty o "VERSION")); simpl.
  - destruct (truthy (getProperty o "DATE")); simpl; [done|].
    by apply unset_after_default.
  - destruct (truthy (getProperty (setProperty o "version" (Text "Version not set!"))
                        "DATE")); simpl; [done|].
    rewrite <- Hfilter. apply unset_after_default; [|done].
    rewrite Hkeys, elem_of_app, list_elem_of_singleton.
    intros [?|?]; done.
Qed.

(** X6. For an object that has no property named [version] or [date],
    [scanConfigObject] returns exactly when every property other than DATE
    and VERSION has a truthy value; otherwise it throws an error whose
    message lists the names of the falsy ones, in the order of the
    object, separated by a comma and a space. *)
Theorem scanConfigObject_criterion (now : Z) (o : object) :
  "version" ∉ keys o → "date" ∉ keys o →
  (scanConfigObject now o).1
  = match filter (unset o) (keys o) with
    | [] => Ok tt
    | unsetVars =>
        Throw (Error ("The following environment variables are not set: "
                      ++ String.concat ", " unsetVars)%string)
    end
  ∧ ((scanConfigObject now o).1 = Ok tt
     ↔ ∀ key, key ∈ keys o → key ∉ ["DATE"; "VERSION"] →
              truthy (getProperty o key) = true).
Proof.
  intros Hversion Hdate.
  rewrite scanConfigObject_run. simpl.
  rewrite unset_withDefaults by done. split; [done|].
  destruct (filter (unset o) (keys o)) as [|key unsetVars] eqn:Hunset.
  - split; [|done]. intros _ key Hkey Hother.
    destruct (truthy (getProperty o key)) eqn:Htruthy; [done|].
    assert (key ∈ filter (unset o) (keys o)) as Hin
      by (apply list_elem_of_filter; by split).
    rewrite Hunset in Hin. by apply elem_of_nil in Hin.
  - split; [done|]. intros Hall.
    assert (key ∈ filter (unset o) (keys o)) as Hin by (rewrite Hunset; by left).
    apply list_elem_of_filter in Hin as [[Hother Hfalsy] Hkey].
    rewrite (Hall key Hkey Hother) in Hfalsy. done.
Qed.

(** X7. The module's own object: loading it throws exactly when
    BENTO_BACKEND_GRAPHQL_URI is undefined or empty, with a message that
    names this variable alone; VERSION and DATE may be missing. *)
Theorem config_startup (now : Z) (env : Env) :
  (scanConfigObject now (config env)).1
  = if truthy (env_BENTO_BACKEND_GRAPHQL_URI env) then Ok tt
    else Throw (Error "The following environment variables are not set: BENTO_BACKEND_GRAPHQL_URI").
Proof.
  rewrite scanConfigObject_run. simpl.
  rewrite unset_withDefaults.
  - unfold config, keys. csimpl.
    rewrite filter_cons_False by (intros [Hother _]; apply Hother; by right; left).
    rewrite filter_cons_False by (intros [Hother _]; apply Hother; by left).
    destruct (truthy (env_BENTO_BACKEND_GRAPHQL_URI env)) eqn:Huri.
    + rewrite filter_cons_False; [done|]. unfold unset. simpl.
      intros [_ ?]. congruence.
    + rewrite filter_cons_True; [done|]. unfold unset. simpl.
      split; [|done]. intros [?|[?|[]%elem_of_nil]%elem_of_cons]%elem_of_cons; done.
  - unfold config, keys. csimpl.
    intros [?|[?|[?|[]%elem_of_nil]%elem_of_cons]%elem_of_cons]%elem_of_cons; done.
  - unfold config, keys. csimpl.
    intros [?|[?|[?|[]%elem_of_nil]%elem_of_cons]%elem_of_cons]%elem_of_cons; done.
Qed.

(** ** fetchData.js: the listings *)

(** What a fetcher makes of an answer: its body, or the empty list. *)
Definition seriesOf (answer : response (list Series)) : list Series :=
  match answer with
  | Json data => data
  | _ => []
  end.

Lemma getTciaCollectionData_run (answer : response (list Series))
    (console : list js_error) :
  getTciaCollectionData answer console
  = (Ok (seriesOf answer), console ++ option_list (failure answer)).
Proof.
  unfold getTciaCollectionData. run.
  destruct answer; simpl; by rewrite ?app_nil_r.
Qed.

Lemma getIdcCollections_run (items : list IdcItem) (console : list js_error) :
  Forall (fun item => is_Some (item_collection_id item)) items →
  getIdcCollections (Json {| collections := Some items |}) console
  = (Ok (omap idcRecord
           (filter (fun item => propertyIncludes item_collection_id "icdc_" item) items)),
     console).
Proof.
  intros Hall. unfold getIdcCollections. run.
  by rewrite filterObjectArray_present.
Qed.

Lemma getTciaCollections_run (items : list TciaItem) (console : list js_error) :
  Forall (fun item => is_Some (item_Collection item)) items →
  getTciaCollections (Json items) console
  = (Ok (omap item_Collection
           (filter (fun item => propertyIncludes item_Collection "ICDC-" item) items)),
     console).
Proof.
  intros Hall. unfold getTciaCollections. run.
  by rewrite filterObjectArray_present.
Qed.

(** X8. When every item of the archive A listing has a [collection_id],
    [getIdcCollections] logs nothing and returns, in the order of the
    listing, one record for each item whose id includes "icdc_", with the
    item's id and description. When the body has no [collections], it logs
    a TypeError and returns the empty list. *)
Theorem getIdcCollections_listing (items : list IdcItem) (console : list js_error) :
  Forall (fun item => is_Some (item_collection_id item)) items →
  (∃ idcCollections,
     getIdcCollections (Json {| collections := Some items |}) console
     = (Ok idcCollections, console)
     ∧ Forall2 (fun item c => item_collection_id item = Some (collection_id c)
                              ∧ item_description item = description c)
               (filter (fun item => propertyIncludes item_collection_id "icdc_" item)
                       items)
               idcCollections)
  ∧ getIdcCollections (Json {| collections := None |}) console
    = (Ok [], console ++ [TypeError]).
Proof.
  intros Hall. split; [|reflexivity].
  eexists. split; [by apply getIdcCollections_run|].
  apply (idcRecord_filtered items _ "icdc_").
  by apply filterObjectArray_present.
Qed.

(** X9. When every item of the archive B listing has a [Collection],
    [getTciaCollections] logs nothing and returns, in the order of the
    listing, the names that include "ICDC-". *)
Theorem getTciaCollections_listing (items : list TciaItem) (names : list string)
    (console : list js_error) :
  item_Collection <$> items = Some <$> names →
  getTciaCollections (Json items) console
  = (Ok (filter (fun name => includes name "ICDC-") names), console).
Proof.
  intros Hnames. rewrite getTciaCollections_run.
  - do 2 f_equal. revert names Hnames.
    induction items as [|item items IH]; intros [|name names] Heq;
      csimpl in Heq; try done.
    injection Heq as Hitem Hrest.
    specialize (IH names Hrest).
    assert (propertyIncludes item_Collection "ICDC-" item = includes name "ICDC-")
      as Hsame by (unfold propertyIncludes; by rewrite Hitem).
    destruct (includes name "ICDC-") eqn:Hinc.
    + rewrite !filter_cons_True by (by rewrite ?Hsame, ?Hinc).
      csimpl. by rewrite Hitem, IH.
    + rewrite !filter_cons_False by (rewrite ?Hsame, ?Hinc; simpl; tauto).
      done.
  - apply Forall_forall. intros item Hin.
    apply (list_elem_of_fmap_2 item_Collection) in Hin. rewrite Hnames in Hin.
    apply list_elem_of_fmap in Hin as (name & -> & _). by eexists.
Qed.

Lemma getTciaCollectionsData_from_run
    (series : nat -> string -> response (list Series)) (names : list string) :
  ∀ (i0 : nat) (acc : gmap string (list Series)) (console : list js_error),
    ∃ td,
      getTciaCollectionsData_from series i0 names acc console
      = (Ok td,
         console ++ omap failure (imap (fun j => series (i0 + j)%nat) names))
      ∧ (∀ name, name ∉ names → td !! name = acc !! name)
      ∧ (∀ j name, names !! j = Some name →
           (∀ j', (j < j')%nat → names !! j' ≠ Some name) →
           td !! name = Some (seriesOf (series (i0 + j)%nat name))).
Proof.
  induction names as [|n rest IH]; intros i0 acc console.
  - exists acc. simpl. rewrite app_nil_r. split_and!; [done..|].
    intros j name Hj. by rewrite lookup_nil in Hj.
  - simpl. unfold mbind at 1, M_bind at 1.
    rewrite getTciaCollectionData_run.
    destruct (IH (S i0) (<[n := seriesOf (series i0 n)]> acc)
                (console ++ option_list (failure (series i0 n))))
      as (td & Hrun & Hout & Hin).
    exists td. split_and!.
    + rewrite Hrun. f_equal. rewrite <- app_assoc. f_equal.
      rewrite Nat.add_0_r.
      rewrite (imap_ext ((fun j => series (i0 + j)%nat) ∘ S)
                 (fun j => series (S i0 + j)%nat) rest)
        by (intros j x _; simpl; f_equal; lia).
      by destruct (failure (series i0 n)).
    + intros name [Hne Hrest]%not_elem_of_cons.
      by rewrite Hout, lookup_insert_ne.
    + intros [|j] name Hj Hlast; simpl in Hj.
      * injection Hj as ->. rewrite Nat.add_0_r, Hout, lookup_insert_eq; [done|].
        intros (j' & Hj')%list_elem_of_lookup.
        by apply (Hlast (S j')); [lia|].
      * replace (i0 + S j)%nat with (S i0 + j)%nat by lia.
        apply Hin; [done|]. intros j' Hlt. apply (Hlast (S j')). lia.
Qed.

(** X10. [getTciaCollectionsData] asks for the series of each listed name in
    turn, logs the failures in that order and never throws. The object it
    returns has the listed names as its properties and no other; under
    each name it holds what the last request for that name returned: the
    series, or the empty list when that request failed. *)
Theorem getTciaCollectionsData_lookup
    (series : nat -> string -> response (list Series)) (names : list string)
    (console : list js_error) :
  ∃ tciaCollectionsData,
    getTciaCollectionsData series names console
    = (Ok tciaCollectionsData, console ++ omap failure (imap series names))
    ∧ (∀ name, name ∉ names → tciaCollectionsData !! name = None)
    ∧ (∀ i name, names !! i = Some name →
         (∀ j, (i < j)%nat → names !! j ≠ Some name) →
         tciaCollectionsData !! name = Some (seriesOf (series i name))).
Proof.
  destruct (getTciaCollectionsData_from_run series names O ∅ console)
    as (td & Hrun & Hout & Hin).
  exists td. split_and!; [exact Hrun| |exact Hin].
  intros name Hname. by rewrite Hout.
Qed.

(** ** fetchData.js: the aggregates *)

Lemma num_add_NaN_l (b : number) : num_add NaN b = NaN.
Proof. by destruct b. Qed.

Lemma num_add_NaN_r (a : number) : num_add a NaN = NaN.
Proof. by destruct a. Qed.

Lemma roundDouble_not_NaN (z : Z) : roundDouble z ≠ NaN.
Proof.
  unfold roundDouble. destruct (Z.abs z <? 2 ^ 53); [done|].
  by destruct (2 ^ 1024 <=? _).
Qed.

(** A finite summand yields NaN only from NaN. *)
Lemma num_add_Int_NaN (a : number) (y : Z) : num_add a (Int y) = NaN → a = NaN.
Proof.
  destruct a as [|s|x]; simpl; [done..|].
  intros Hsum. by apply roundDouble_not_NaN in Hsum.
Qed.

Lemma sum_from_NaN (counts : list string) :
  foldl (fun tot c => num_add tot (parseInt c)) NaN counts = NaN.
Proof.
  induction counts as [|c counts IH]; [done|].
  cbn [foldl]. by rewrite num_add_NaN_l.
Qed.

Lemma sum_with_NaN (counts : list string) (tot : number) :
  (∃ c, c ∈ counts ∧ parseInt c = NaN) →
  foldl (fun tot c => num_add tot (parseInt c)) tot counts = NaN.
Proof.
  revert tot. induction counts as [|c counts IH]; intros tot (c' & Hin & Hc').
  - by apply elem_of_nil in Hin.
  - simpl. apply elem_of_cons in Hin as [->|Hin].
    + rewrite Hc', num_add_NaN_r. apply sum_from_NaN.
    + apply IH. by exists c'.
Qed.

Lemma sum_NaN_inv (counts : list string) (tot : number) :
  Forall (fun c => ∀ negative, parseInt c ≠ Infinity negative) counts →
  foldl (fun tot c => num_add tot (parseInt c)) tot counts = NaN →
  tot = NaN ∨ ∃ c, c ∈ counts ∧ parseInt c = NaN.
Proof.
  intros Hfinite. revert tot.
  induction Hfinite as [|c counts Hc _ IH]; intros tot; simpl.
  - by left.
  - intros [Htot|(c' & Hin & Hc')]%IH.
    + destruct (parseInt c) as [|negative|y] eqn:Hparse.
      * right. exists c. split; [by left|done].
      * by destruct (Hc negative).
      * left. by apply num_add_Int_NaN in Htot.
    + right. exists c'. split; [by right|done].
Qed.

(** *** Counts that parse to a finite number

    A string of at most 255 characters holds a number below [16 ^ 255],
    which is [2 ^ 1020]: its double is finite. *)

Lemma roundDouble_finite (z : Z) (negative : bool) :
  Z.abs z < 2 ^ 1020 → roundDouble z ≠ Infinity negative.
Proof.
  intros Hsmall. unfold roundDouble.
  destruct (Z.abs z <? 2 ^ 53) eqn:Hexact; [done|].
  apply Z.ltb_ge in Hexact.
  set (a := Z.abs z) in *. set (e := Z.log2 a - 52).
  assert (0 < a) as Hpos by lia.
  assert (53 ≤ Z.log2 a) as Hlog by (by apply Z.log2_le_pow2).
  assert (0 < 2 ^ e) as Hpow by (apply Z.pow_pos_nonneg; lia).
  assert (2 ^ e ≤ a) as Hle.
  { transitivity (2 ^ Z.log2 a); [|by apply Z.log2_spec].
    apply Z.pow_le_mono_r; lia. }
  pose proof (Z.mul_div_le a (2 ^ e) Hpow) as Hq.
  set (q := a / 2 ^ e) in *.
  assert ((if (2 ^ (e - 1) <? a mod 2 ^ e)
              || ((a mod 2 ^ e =? 2 ^ (e - 1)) && Z.odd q)
           then q + 1 else q) * 2 ^ e < 2 ^ 1024) as Hm.
  { assert (2 ^ 1020 * 2 ≤ 2 ^ 1024) by (by vm_compute).
    destruct (_ || _); nia. }
  apply Z.leb_gt in Hm. by rewrite Hm.
Qed.

Lemma digitValue_nonneg (c : ascii) (d : Z) : digitValue c = Some d → 0 ≤ d.
Proof.
  unfold digitValue. repeat case_match; intros [= <-]; lia.
Qed.

Lemma digitsPrefix_bound (radix : Z) (s : string) (a v : Z) (acc : option Z) :
  0 ≤ radix ≤ 16 →
  0 ≤ default 0 acc ≤ a →
  digitsPrefix radix s acc = Some v →
  0 ≤ v < (a + 1) * 16 ^ Z.of_nat (String.length s).
Proof.
  intros Hradix. revert a acc.
  induction s as [|c r IH]; intros a acc Hacc; simpl String.length.
  - simpl. intros ->. simpl in Hacc. lia.
  - assert (0 < 16 ^ Z.of_nat (String.length r)) as Hpow
      by (apply Z.pow_pos_nonneg; lia).
    assert (16 ^ Z.of_nat (S (String.length r))
            = 16 * 16 ^ Z.of_nat (String.length r)) as ->.
    { rewrite Nat2Z.inj_succ, Z.pow_succ_r by lia. done. }
    simpl. destruct (digitValue c) as [d|] eqn:Hdigit.
    + apply digitValue_nonneg in Hdigit.
      destruct (d <? radix) eqn:Hlt.
      * apply Z.ltb_lt in Hlt. intros Hv.
        apply (IH (16 * a + 15)) in Hv; [nia|simpl; nia].
      * intros ->. simpl in Hacc. nia.
    + intros ->. simpl in Hacc. nia.
Qed.

Lemma trimStart_length (s : string) :
  (String.length (trimStart s) ≤ String.length s)%nat.
Proof.
  induction s as [|c r IH]; simpl; [done|].
  destruct (isWhiteSpace c); simpl; lia.
Qed.

(** The sign and the radix that [parseInt] reads off the front of a
    string, each with the rest of the string. *)
Definition signAndRest (s1 : string) : Z * string :=
  match s1 with
  | String "-" r => (-1, r)
  | String "+" r => (1, r)
  | _ => (1, s1)
  end.

Definition radixAndRest (s2 : string) : Z * string :=
  match s2 with
  | String "0" (String "x" r) => (16, r)
  | String "0" (String "X" r) => (16, r)
  | _ => (10, s2)
  end.

Lemma parseInt_unfold (s : string) :
  parseInt s
  = let '(sign, s2) := signAndRest (trimStart s) in
    let '(radix, s3) := radixAndRest s2 in
    match digitsPrefix radix s3 None with
    | Some v => roundDouble (sign * v)
    | None => NaN
    end.
Proof. reflexivity. Qed.

Lemma signAndRest_spec (s1 : string) :
  Z.abs (signAndRest s1).1 = 1
  ∧ (String.length (signAndRest s1).2 ≤ String.length s1)%nat.
Proof.
  destruct s1 as [|c r]; [by split|].
  destruct c as [[] [] [] [] [] [] [] []]; simpl; split; (done || lia).
Qed.

Lemma radixAndRest_spec (s2 : string) :
  0 ≤ (radixAndRest s2).1 ≤ 16
  ∧ (String.length (radixAndRest s2).2 ≤ String.length s2)%nat.
Proof.
  destruct s2 as [|c r]; [by split|].
  destruct c as [[] [] [] [] [] [] [] []]; simpl; try (split; (done || lia)).
  destruct r as [|c r]; [by split|].
  destruct c as [[] [] [] [] [] [] [] []]; simpl; split; (done || lia).
Qed.

Lemma parseInt_finite (s : string) (negative : bool) :
  (String.length s ≤ 255)%nat → parseInt s ≠ Infinity negative.
Proof.
  intros Hshort. rewrite parseInt_unfold.
  pose proof (trimStart_length s) as Htrim.
  destruct (signAndRest_spec (trimStart s)) as [Hsign Hrest].
  destruct (signAndRest (trimStart s)) as [sign s2]. simpl in Hsign, Hrest.
  destruct (radixAndRest_spec s2) as [Hradix Hrest'].
  destruct (radixAndRest s2) as [radix s3]. simpl in Hradix, Hrest'.
  destruct (digitsPrefix radix s3 None) as [v|] eqn:Hdigits; [|done].
  apply roundDouble_finite.
  apply (digitsPrefix_bound radix s3 0) in Hdigits; [|done..].
  simpl in Hdigits.
  assert (16 ^ Z.of_nat (String.length s3) ≤ 16 ^ 255) as Hpow
    by (apply Z.pow_le_mono_r; lia).
  assert ((16 ^ 255 : Z) = 2 ^ 1020) as Heq by (by vm_compute).
  rewrite Z.abs_mul, Hsign. lia.
Qed.

(** *** Order of the series *)

Lemma fmap_Permutation_inv {A B} (f : A → B) (k : list A) (l : list B) :
  f <$> k ≡ₚ l → ∃ k', l = f <$> k' ∧ k ≡ₚ k'.
Proof.
  remember (f <$> k) as m eqn:Hm. intros Hperm. revert k Hm.
  induction Hperm as [|y m l _ IH|y z m|m l l' _ IH1 _ IH2]; intros k Hm.
  - symmetry in Hm. apply fmap_nil_inv in Hm as ->. by exists [].
  - symmetry in Hm. apply fmap_cons_inv in Hm as (x & k0 & -> & -> & ->).
    destruct (IH k0 eq_refl) as (k' & -> & Hperm).
    exists (x :: k'). split; [done|]. by constructor.
  - symmetry in Hm. apply fmap_cons_inv in Hm as (x & k0 & -> & Hm & ->).
    symmetry in Hm. apply fmap_cons_inv in Hm as (x' & k1 & -> & -> & ->).
    exists (x' :: x :: k1). split; [done|]. constructor.
  - destruct (IH1 k Hm) as (k1 & -> & Hperm1).
    destruct (IH2 k1 eq_refl) as (k2 & -> & Hperm2).
    exists k2. split; [done|]. by etrans.
Qed.

Lemma total_perm (counts counts' : list N) :
  counts ≡ₚ counts' → total counts = total counts'.
Proof.
  induction 1 as [|n l l' _ IH|n n' l|l l' l'' _ IH1 _ IH2]; simpl; lia.
Qed.

Lemma sum_of_parsed_perm (strings strings' : list string) (counts : list N) :
  strings ≡ₚ strings' →
  strings = pretty <$> counts →
  total counts ≤ MAX_SAFE_INTEGER →
  sum_of_parsed strings = sum_of_parsed strings'.
Proof.
  intros Hperm -> Hsafe.
  apply fmap_Permutation_inv in Hperm as (counts' & -> & Hperm).
  rewrite !sum_of_parsed_numerals; [by rewrite (total_perm _ _ Hperm)|..];
    [by rewrite <- (total_perm _ _ Hperm) | done].
Qed.

Lemma Set_of_perm (l l' : list string) : l ≡ₚ l' → Set_of l ≡ₚ Set_of l'.
Proof.
  intros Hperm. apply NoDup_Permutation; [apply NoDup_Set_of..|].
  intros x. by rewrite !elem_of_Set_of, Hperm.
Qed.

Lemma length_first_seen {A} `{EqDecision A} (l : list A) :
  (List.length (first_seen l) ≤ List.length l)%nat
  ∧ (l ≠ [] → 1 ≤ List.length (first_seen l))%nat.
Proof.
  induction l as [|x l [IH _]]; simpl; [done|].
  split; [|lia].
  pose proof (length_filter (fun y => y ≠ x) (first_seen l)). lia.
Qed.

(** X11. One series whose [ImageCount] does not start with an integer makes
    the image count of the metadata NaN, for GLIOMA01 as for any other
    study. When no [ImageCount] has more than 255 characters, so that none
    parses to an infinity, this is the only way: the image count is NaN
    exactly when the [ImageCount] of some series parses to NaN. *)
Theorem aggregate_NaN_iff (collectionId : string)
    (tciaCollectionsData : gmap string (list Series)) (icdcStudy : Study)
    (series : list Series) :
  tciaCollectionsData !! collectionId = Some series →
  ∃ meta,
    getTciaCollectionMetadata collectionId tciaCollectionsData icdcStudy = Ok meta
    ∧ ((∃ obj, obj ∈ series ∧ parseInt (ImageCount obj) = NaN) →
       Aggregate_ImageCount meta = NaN)
    ∧ (Forall (fun obj => (String.length (ImageCount obj) ≤ 255)%nat) series →
       (Aggregate_ImageCount meta = NaN
        ↔ ∃ obj, obj ∈ series ∧ parseInt (ImageCount obj) = NaN)).
Proof.
  intros Hseries. unfold getTciaCollectionMetadata. rewrite Hseries.
  assert ((∃ obj, obj ∈ series ∧ parseInt (ImageCount obj) = NaN) →
          sum_of_parsed (ImageCount <$> series) = NaN) as Hnan.
  { intros (obj & Hobj & Hc). apply sum_with_NaN. exists (ImageCount obj).
    split; [by apply list_elem_of_fmap_2|done]. }
  assert (Forall (fun obj => (String.length (ImageCount obj) ≤ 255)%nat) series →
          sum_of_parsed (ImageCount <$> series) = NaN →
          ∃ obj, obj ∈ series ∧ parseInt (ImageCount obj) = NaN) as Hinv.
  { intros Hshort Hsum. apply sum_NaN_inv in Hsum as [?|(c & Hin & Hc)]; [done| |].
    - apply list_elem_of_fmap in Hin as (obj & -> & Hobj). by exists obj.
    - apply Forall_fmap. eapply Forall_impl; [exact Hshort|].
      intros obj Hobj negative. simpl. by apply parseInt_finite. }
  destruct (isGlioma icdcStudy); (eexists; split; [reflexivity|]); simpl;
    rewrite total_images.
  - split.
    + intros Hobj. by rewrite Hnan.
    + intros Hshort. split.
      * intros Hsum. apply Hinv; [done|].
        by apply num_add_Int_NaN in Hsum.
      * intros Hobj. by rewrite Hnan.
  - split; [done|]. intros Hshort. split; [by apply Hinv | done].
Qed.

(** X12. The patient count does not depend on the order in which the
    archive lists the series of a collection, and the modalities and the
    body parts are the same up to their order. The image count does not
    depend on it either when the counts are the decimal numerals of natural
    numbers whose sum is at most [MAX_SAFE_INTEGER]. *)
Theorem aggregate_order_independent (collectionId : string)
    (data data' : gmap string (list Series)) (icdcStudy : Study)
    (series series' : list Series) :
  series ≡ₚ series' →
  data !! collectionId = Some series →
  data' !! collectionId = Some series' →
  ∃ meta meta',
    getTciaCollectionMetadata collectionId data icdcStudy = Ok meta
    ∧ getTciaCollectionMetadata collectionId data' icdcStudy = Ok meta'
    ∧ Aggregate_PatientID meta = Aggregate_PatientID meta'
    ∧ Aggregate_Modality meta ≡ₚ Aggregate_Modality meta'
    ∧ Aggregate_BodyPartExamined meta ≡ₚ Aggregate_BodyPartExamined meta'
    ∧ (∀ counts : list N,
         ImageCount <$> series = pretty <$> counts →
         total counts ≤ MAX_SAFE_INTEGER →
         Aggregate_ImageCount meta = Aggregate_ImageCount meta').
Proof.
  intros Hperm Hseries Hseries'.
  unfold getTciaCollectionMetadata. rewrite Hseries, Hseries'.
  assert (∀ counts : list N,
            ImageCount <$> series = pretty <$> counts →
            total counts ≤ MAX_SAFE_INTEGER →
            sum_of_parsed (ImageCount <$> series)
            = sum_of_parsed (ImageCount <$> series')) as Hsum.
  { intros counts Hnumerals Hsafe.
    apply (sum_of_parsed_perm _ _ counts); [by rewrite Hperm|done..]. }
  assert (List.length (Set_of (PatientID <$> series))
          = List.length (Set_of (PatientID <$> series'))) as Hpatients
    by (apply Permutation_length, Set_of_perm; by rewrite Hperm).
  assert (Set_of (Modality <$> series) ≡ₚ Set_of (Modality <$> series'))
    as Hmod by (apply Set_of_perm; by rewrite Hperm).
  assert (Set_of (BodyPartExamined <$> series)
          ≡ₚ Set_of (BodyPartExamined <$> series'))
    as Hparts by (apply Set_of_perm; by rewrite Hperm).
  destruct (isGlioma icdcStudy); do 2 eexists;
    (split; [reflexivity|]); (split; [reflexivity|]); simpl;
    rewrite !total_images; split_and!; try done.
  - by rewrite Hmod.
  - intros counts Hnumerals Hsafe. by rewrite (Hsum counts).
Qed.

(** X13. For a collection with at least one series, the patient count is at
    least one and at most the number of series, and there are at most as
    many body parts as series. *)
Theorem aggregate_bounds (collectionId : string)
    (tciaCollectionsData : gmap string (list Series)) (icdcStudy : Study)
    (series : list Series) :
  tciaCollectionsData !! collectionId = Some series →
  series ≠ [] →
  ∃ meta,
    getTciaCollectionMetadata collectionId tciaCollectionsData icdcStudy = Ok meta
    ∧ (1 ≤ Aggregate_PatientID meta ≤ List.length series)%nat
    ∧ (1 ≤ List.length (Aggregate_BodyPartExamined meta) ≤ List.length series)%nat
    ∧ (1 ≤ List.length (Aggregate_Modality meta) ≤ List.length series + 1)%nat.
Proof.
  intros Hseries Hne. unfold getTciaCollectionMetadata. rewrite Hseries.
  assert (∀ f : Series → string,
            (1 ≤ List.length (Set_of (f <$> series)) ≤ List.length series)%nat)
    as Hbound.
  { intros f. rewrite Set_of_first_seen.
    destruct (length_first_seen (f <$> series)) as [Hle Hge].
    rewrite length_fmap in Hle. split; [|done].
    apply Hge. by destruct series. }
  pose proof (Hbound PatientID). pose proof (Hbound Modality).
  pose proof (Hbound BodyPartExamined).
  destruct (isGlioma icdcStudy); (eexists; split; [reflexivity|]); simpl;
    rewrite ?length_app; simpl; lia.
Qed.

(** ** fetchData.js: matching, whatever the matcher returns *)

Ltac open_idcBody := unfold idcBody at 1.
Ltac open_tciaBody := unfold tciaBody at 1.
Ltac open_studyBody := unfold studyBody at 1.

Section AnyMatcher.
Variables IDC_COLLECTION_BASE_URL TCIA_COLLECTION_BASE_URL : string.
Variable BENTO_BACKEND_NOT_CONNECTED : string.
Variable search : string -> list string -> list string.
Variable htmlToText : string -> string.

Local Abbreviation getIdcCollectionMetadata := (getIdcCollectionMetadata htmlToText).
Local Abbreviation mapMatchesToStudy :=
  (mapMatchesToStudy IDC_COLLECTION_BASE_URL TCIA_COLLECTION_BASE_URL search htmlToText).
Local Abbreviation collectMappings :=
  (collectMappings IDC_COLLECTION_BASE_URL TCIA_COLLECTION_BASE_URL search htmlToText).
Local Abbreviation mapExternalDataToStudies :=
  (mapExternalDataToStudies IDC_COLLECTION_BASE_URL TCIA_COLLECTION_BASE_URL
     BENTO_BACKEND_NOT_CONNECTED search htmlToText).
Local Abbreviation idcBody := (idcBody IDC_COLLECTION_BASE_URL htmlToText).
Local Abbreviation tciaBody := (tciaBody TCIA_COLLECTION_BASE_URL).
Local Abbreviation tcia_link := (tcia_link TCIA_COLLECTION_BASE_URL).
Local Abbreviation studyBody :=
  (studyBody IDC_COLLECTION_BASE_URL TCIA_COLLECTION_BASE_URL search htmlToText).

Lemma getIdcCollectionMetadata_missing (name : string) (icdcStudy : Study)
    (h : list IdcCollection) :
  name ∉ collection_id <$> h →
  getIdcCollectionMetadata name icdcStudy h = (Throw TypeError, h).
Proof.
  intros Hout. open_getIdcCollectionMetadata.
  destruct (list_find (fun obj => collection_id obj = name) h) as [[i obj]|] eqn:Hfind;
    [|done].
  apply list_find_Some in Hfind as (Hi & Hid & _). destruct Hout.
  apply list_elem_of_fmap. exists obj. split; [done|].
  by apply list_elem_of_lookup_2 in Hi.
Qed.

(** X14. [getIdcCollectionMetadata] changes one object and no other: when some
    object of the listing has the id, the first such object gets the
    cleaned description and keeps its id, every other object and the
    length of the listing stay as they were; when none has it, the call
    throws a TypeError and the listing is untouched. *)
Theorem getIdcCollectionMetadata_frame (name : string) (icdcStudy : Study)
    (h : list IdcCollection) :
  (name ∉ collection_id <$> h →
   getIdcCollectionMetadata name icdcStudy h = (Throw TypeError, h))
  ∧ (name ∈ collection_id <$> h →
     ∃ i obj h',
       getIdcCollectionMetadata name icdcStudy h = (Ok i, h')
       ∧ h !! i = Some obj
       ∧ collection_id obj = name
       ∧ (∀ j, (j < i)%nat → (collection_id <$> h) !! j ≠ Some name)
       ∧ h' !! i = Some {| collection_id := name;
                           description :=
                             cleanDescription htmlToText icdcStudy (description obj) |}
       ∧ List.length h' = List.length h
       ∧ ∀ j, j ≠ i → h' !! j = h !! j).
Proof.
  split; [apply getIdcCollectionMetadata_missing|].
  intros Hin.
  destruct (getIdcCollectionMetadata_found htmlToText name icdcStudy h Hin)
    as (i & obj & Hfind & Hrun).
  apply list_find_Some in Hfind as (Hi & Hid & Hfirst).
  eexists i, obj, _. split; [exact Hrun|].
  split_and!; [done..| | | |].
  - intros j Hj. rewrite list_lookup_fmap.
    destruct (h !! j) as [y|] eqn:Hy; [|done].
    simpl. intros [= Hname]. by apply (Hfirst j y).
  - rewrite Hid. apply list_lookup_insert_eq. by apply lookup_lt_Some in Hi.
  - apply length_insert.
  - intros j Hj. by apply list_lookup_insert_ne.
Qed.

(** The first loop of [mapMatchesToStudy] for any list of matches: it
    keeps the ids of the listing; it returns, with one archive A entry per
    match, when every match is an id of the listing, and throws a
    TypeError otherwise. *)
Lemma idc_loop_outcome (icdcStudy : Study) (matches : list string) :
  ∀ (acc : list MatchResult) (h : list IdcCollection),
    ∃ r h',
      for_in matches (idcBody icdcStudy) acc h = (r, h')
      ∧ collection_id <$> h' = collection_id <$> h
      ∧ ((Forall (fun name => name ∈ collection_id <$> h) matches
          ∧ ∃ rs, r = Ok (acc ++ rs)
                  ∧ List.length rs = List.length matches
                  ∧ Forall (fun x => repository x = IDC) rs)
         ∨ (Exists (fun name => name ∉ collection_id <$> h) matches
            ∧ r = Throw TypeError)).
Proof.
  induction matches as [|name matches IH]; intros acc h.
  - exists (Ok acc), h. split_and!; [done..|]. left. split; [done|].
    exists []. by rewrite app_nil_r.
  - simpl. unfold mbind at 1, M_bind at 1. open_idcBody.
    unfold mbind at 1, M_bind at 1.
    destruct (decide (name ∈ collection_id <$> h)) as [Hin|Hout].
    + destruct (getIdcCollectionMetadata_found htmlToText name icdcStudy h Hin)
        as (i & obj & Hfind & ->).
      apply list_find_Some in Hfind as (Hi & _ & _).
      pose proof (ids_after_update h i obj
        (cleanDescription htmlToText icdcStudy (description obj)) Hi) as Hids.
      simpl.
      destruct (IH (acc ++ [{| repository := IDC;
                               url := (IDC_COLLECTION_BASE_URL ++ name)%string;
                               metadata := IdcMetadata i |}])
                  (<[i := {| collection_id := collection_id obj;
                             description :=
                               cleanDescription htmlToText icdcStudy (description obj) |}]> h))
        as (r & h' & -> & Hh' & Hcase).
      exists r, h'. rewrite Hids in Hh', Hcase. split_and!; [done..|].
      destruct Hcase as [(Hall & rs & -> & Hlen & Hrs)|(Hex & ->)].
      * left. split; [by constructor|].
        eexists (_ :: rs). rewrite <- app_assoc. split_and!; [done|simpl; lia|].
        by constructor.
      * right. split; [by right|done].
    + rewrite getIdcCollectionMetadata_missing by done.
      exists (Throw TypeError), h. split_and!; [done..|].
      right. split; [by left|done].
Qed.

(** Some match of [study] among the ids is not one of the ids. *)
Definition unknownMatch (ids : list string) (study : Study) : Prop :=
  ∃ name, name ∈ search (clinical_study_designation study) ids ∧ name ∉ ids.

Lemma unknownMatch_Exists (ids : list string) (study : Study) :
  unknownMatch ids study
  ↔ Exists (fun name => name ∉ ids) (search (clinical_study_designation study) ids).
Proof. unfold unknownMatch. rewrite Exists_exists. done. Qed.

Lemma mapMatchesToStudy_outcome (icdcStudy : Study) (tciaCollections : list string)
    (tciaCollectionsData : gmap string (list Series)) (h : list IdcCollection) :
  ∃ r h',
    mapMatchesToStudy icdcStudy tciaCollections tciaCollectionsData h = (r, h')
    ∧ collection_id <$> h' = collection_id <$> h
    ∧ ((¬ unknownMatch (collection_id <$> h) icdcStudy
        ∧ ∃ idcPart tciaPart,
            r = Ok (idcPart ++ tciaPart)
            ∧ List.length idcPart
              = List.length (search (clinical_study_designation icdcStudy)
                                    (collection_id <$> h))
            ∧ Forall (fun x => repository x = IDC) idcPart
            ∧ Forall2 (tcia_link tciaCollectionsData icdcStudy)
                (filter (fun name => hasSeries tciaCollectionsData name)
                        (search (clinical_study_designation icdcStudy) tciaCollections))
                tciaPart)
       ∨ (unknownMatch (collection_id <$> h) icdcStudy ∧ r = Throw TypeError)).
Proof.
  rewrite mapMatchesToStudy_loops.
  destruct (idc_loop_outcome icdcStudy
              (search (clinical_study_designation icdcStudy) (collection_id <$> h))
              [] h) as (r & h' & -> & Hids & Hcase).
  destruct Hcase as [(Hall & idcPart & -> & Hlen & Hidc)|(Hex & ->)].
  - destruct (tcia_loop IDC_COLLECTION_BASE_URL TCIA_COLLECTION_BASE_URL htmlToText
              icdcStudy tciaCollectionsData
                (search (clinical_study_designation icdcStudy) tciaCollections)
                ([] ++ idcPart) h') as (tciaPart & -> & Htcia).
    eexists _, h'. split_and!; [done..|]. left. split.
    + rewrite unknownMatch_Exists. intros Hex.
      apply Exists_exists in Hex as (name & Hin & Hout).
      rewrite Forall_forall in Hall. by apply Hout, Hall.
    + by exists idcPart, tciaPart.
  - exists (Throw TypeError), h'. split_and!; [done..|]. right.
    by rewrite unknownMatch_Exists.
Qed.

Lemma study_loop_outcome (ids : list string) (tciaCollections : list string)
    (tciaCollectionsData : gmap string (list Series)) (studies : list Study) :
  ∀ (acc : list StudyMapping) (h : list IdcCollection),
    collection_id <$> h = ids →
    ∃ r h',
      for_in studies (studyBody tciaCollections tciaCollectionsData) acc h = (r, h')
      ∧ collection_id <$> h' = ids
      ∧ ((Forall (fun study => ¬ unknownMatch ids study) studies
          ∧ ∃ ms, r = Ok (acc ++ ms))
         ∨ (Exists (unknownMatch ids) studies ∧ r = Throw TypeError)).
Proof.
  induction studies as [|study studies IH]; intros acc h Hh.
  - exists (Ok acc), h. split_and!; [done..|]. left. split; [done|].
    exists []. by rewrite app_nil_r.
  - simpl. unfold mbind at 1, M_bind at 1. open_studyBody.
    unfold mbind at 1, M_bind at 1.
    destruct (mapMatchesToStudy_outcome study tciaCollections tciaCollectionsData h)
      as (r & h1 & -> & Hh1 & Hcase).
    rewrite Hh in Hh1, Hcase.
    destruct Hcase as [(Hknown & idcPart & tciaPart & -> & _)|(Hunknown & ->)].
    + assert (∀ acc', ∃ r h',
                for_in studies (studyBody tciaCollections tciaCollectionsData) acc' h1
                = (r, h')
                ∧ collection_id <$> h' = ids
                ∧ ((Forall (fun study => ¬ unknownMatch ids study) (study :: studies)
                    ∧ ∃ ms, r = Ok (acc' ++ ms))
                   ∨ (Exists (unknownMatch ids) (study :: studies)
                      ∧ r = Throw TypeError))) as Hrest.
      { intros acc'. destruct (IH acc' h1 Hh1) as (r & h' & -> & Hh' & Hcase).
        exists r, h'. split_and!; [done..|].
        destruct Hcase as [(Hall & ms & ->)|(Hex & ->)].
        - left. split; [by constructor|by exists ms].
        - right. split; [by right|done]. }
      destruct (gt_zero (numberOfCRDCNodes study)); simpl.
      * destruct (Hrest (acc ++ [{| CRDCLinks := idcPart ++ tciaPart;
                                    mapping_numberOfCRDCNodes := numberOfCRDCNodes study;
                                    mapping_numberOfImageCollections :=
                                      numberOfImageCollections study;
                                    mapping_clinical_study_designation :=
                                      clinical_study_designation study |}]))
          as (r & h' & -> & Hh' & Hcase).
        exists r, h'. split_and!; [done..|].
        destruct Hcase as [(Hall & ms & ->)|(Hex & ->)]; [left|by right].
        split; [done|]. eexists (_ :: ms). by rewrite <- app_assoc.
      * apply Hrest.
    + exists (Throw TypeError), h1. split_and!; [done..|].
      right. split; [by left|done].
Qed.

(** X15. When the matcher finds no archive A id for a study, [mapMatchesToStudy]
    leaves the listing untouched and returns archive B entries alone; when
    it finds no archive B name either, it returns the empty list. *)
Theorem no_archive_a_match (icdcStudy : Study) (tciaCollections : list string)
    (tciaCollectionsData : gmap string (list Series)) (h : list IdcCollection) :
  search (clinical_study_designation icdcStudy) (collection_id <$> h) = [] →
  ∃ links,
    mapMatchesToStudy icdcStudy tciaCollections tciaCollectionsData h = (Ok links, h)
    ∧ Forall (fun r => repository r = TCIA) links
    ∧ (search (clinical_study_designation icdcStudy) tciaCollections = [] →
       links = []).
Proof.
  intros Hnone. rewrite mapMatchesToStudy_loops, Hnone. simpl.
  destruct (tcia_loop IDC_COLLECTION_BASE_URL TCIA_COLLECTION_BASE_URL htmlToText
              icdcStudy tciaCollectionsData
              (search (clinical_study_designation icdcStudy) tciaCollections)
              [] h) as (links & -> & Hlinks).
  exists links. split_and!; [done| |].
  - clear -Hlinks.
    induction Hlinks as [|name r names links [Hrepo _] _ IH]; by constructor.
  - intros Hnone'. rewrite Hnone' in Hlinks. by apply Forall2_nil_inv_l in Hlinks.
Qed.

(** X16. A match that is not an id of the listing is fatal: [mapMatchesToStudy]
    throws a TypeError for that study, and [collectMappings] throws it for
    the whole list, whatever mappings it had collected before. The ids of
    the listing are kept. *)
Theorem unknown_match_is_fatal (studies : list Study) (study : Study)
    (tciaCollections : list string)
    (tciaCollectionsData : gmap string (list Series)) (h : list IdcCollection) :
  study ∈ studies →
  unknownMatch (collection_id <$> h) study →
  (∃ h', mapMatchesToStudy study tciaCollections tciaCollectionsData h
         = (Throw TypeError, h')
         ∧ collection_id <$> h' = collection_id <$> h)
  ∧ (∃ h', collectMappings (Some studies) tciaCollections tciaCollectionsData h
           = (Throw TypeError, h')
           ∧ collection_id <$> h' = collection_id <$> h).
Proof.
  intros Hin Hunknown. split.
  - destruct (mapMatchesToStudy_outcome study tciaCollections tciaCollectionsData h)
      as (r & h' & Hrun & Hids & [(Hknown & _)|(_ & ->)]); [done|].
    by exists h'.
  - rewrite collectMappings_loop. simpl.
    destruct (study_loop_outcome (collection_id <$> h) tciaCollections
                tciaCollectionsData studies [] h eq_refl)
      as (r & h' & Hrun & Hids & [(Hknown & _)|(_ & ->)]).
    + rewrite Forall_forall in Hknown. by destruct (Hknown study Hin).
    + by exists h'.
Qed.

(** X17. The promise of [mapExternalDataToStudies] never rejects, whatever the
    services answer and whatever the matcher returns. It resolves with
    mappings only if the registry answered. Otherwise it resolves with an
    error it has just logged: the backend error when the registry request
    failed, a TypeError when a match was not an id of the listing. *)
Theorem never_rejects (w : World) (console : list js_error) :
  ∃ value heap console',
    mapExternalDataToStudies w console = (Ok (value, heap), console')
    ∧ match value with
      | Mappings _ => failure (registry w) = None
      | Caught e =>
          (∃ c, console' = c ++ [e])
          ∧ e = match failure (registry w) with
                | Some _ => Error BENTO_BACKEND_NOT_CONNECTED
                | None => TypeError
                end
      end.
Proof.
  open_mapExternalDataToStudies. unfold try_catch, mbind at 1, M_bind at 1.
  destruct (failure (registry w)) as [e|] eqn:Hfail.
  - assert (getIcdcStudyData BENTO_BACKEND_NOT_CONNECTED (registry w) console
            = (Throw (Error BENTO_BACKEND_NOT_CONNECTED), console ++ [e])) as ->.
    { open_getIcdcStudyData. run. by rewrite (fetch_json_failure _ e). }
    run. eexists _, _, _. split; [reflexivity|]. simpl.
    split; [by eexists|done].
  - destruct (registry w) as [| |body] eqn:Hbody; try done.
    assert (getIcdcStudyData BENTO_BACKEND_NOT_CONNECTED (Json body) console
            = (Ok (data body ≫= studiesByProgram), console)) as -> by reflexivity.
    unfold mbind at 1, M_bind at 1.
    destruct (getIdcCollections_returns (idcListing w) console)
      as (idc & c1 & ->).
    unfold mbind at 1, M_bind at 1.
    destruct (getTciaCollections_returns (tciaListing w) c1)
      as (names & c2 & ->).
    unfold mbind at 1, M_bind at 1.
    destruct (getTciaCollectionsData_from_returns (tciaSeries w) names O ∅ c2)
      as (td & c3 & Htd).
    unfold getTciaCollectionsData. rewrite Htd.
    unfold mbind at 1, M_bind at 1, with_heap.
    rewrite collectMappings_loop.
    destruct (study_loop_outcome (collection_id <$> idc) names td
                (default [] (data body ≫= studiesByProgram)) [] idc eq_refl)
      as (r & h' & -> & _ & [(_ & ms & ->)|(_ & ->)]).
    + simpl. eexists _, _, _. split; [reflexivity|]. done.
    + run. eexists _, _, _. split; [reflexivity|]. simpl.
      split; [by eexists|done].
Qed.

Lemma mapMatchesToStudy_designation (study study' : Study)
    (tciaCollections : list string)
    (tciaCollectionsData : gmap string (list Series)) (h : list IdcCollection) :
  clinical_study_designation study = clinical_study_designation study' →
  mapMatchesToStudy study tciaCollections tciaCollectionsData h
  = mapMatchesToStudy study' tciaCollections tciaCollectionsData h.
Proof.
  destruct study as [d a b], study' as [d' a' b']. simpl. intros <-.
  reflexivity.
Qed.

Lemma for_in_cons {S A B} (x : A) (rest : list A) (body : A -> B -> M S B)
    (acc : B) (s : S) :
  for_in (x :: rest) body acc s
  = match body x acc s with
    | (Ok acc', s') => for_in rest body acc' s'
    | (Throw e, s') => (Throw e, s')
    end.
Proof. reflexivity. Qed.

Lemma studyBody_run (tciaCollections : list string)
    (tciaCollectionsData : gmap string (list Series)) (study : Study)
    (acc : list StudyMapping) (h : list IdcCollection) :
  studyBody tciaCollections tciaCollectionsData study acc h
  = match mapMatchesToStudy study tciaCollections tciaCollectionsData h with
    | (Ok collectionUrls, h') =>
        (Ok (if gt_zero (numberOfCRDCNodes study) then
               acc ++ [{| CRDCLinks := collectionUrls;
                          mapping_numberOfCRDCNodes := numberOfCRDCNodes study;
                          mapping_numberOfImageCollections :=
                            numberOfImageCollections study;
                          mapping_clinical_study_designation :=
                            clinical_study_designation study |}]
             else acc), h')
    | (Throw e, h') => (Throw e, h')
    end.
Proof.
  open_studyBody. unfold mbind, M_bind.
  destruct (mapMatchesToStudy study tciaCollections tciaCollectionsData h)
    as [[urls|e] h']; [|done].
  by destruct (gt_zero (numberOfCRDCNodes study)).
Qed.

Lemma study_loop_designations (tciaCollections : list string)
    (tciaCollectionsData : gmap string (list Series)) (studies : list Study) :
  ∀ (studies' : list Study) (acc acc' : list StudyMapping) (h : list IdcCollection),
    clinical_study_designation <$> studies = clinical_study_designation <$> studies' →
    (for_in studies (studyBody tciaCollections tciaCollectionsData) acc h).2
    = (for_in studies' (studyBody tciaCollections tciaCollectionsData) acc' h).2
    ∧ ∀ e,
        (for_in studies (studyBody tciaCollections tciaCollectionsData) acc h).1
        = Throw e
        ↔ (for_in studies' (studyBody tciaCollections tciaCollectionsData) acc' h).1
          = Throw e.
Proof.
  induction studies as [|study studies IH]; intros [|study' studies'] acc acc' h Heq;
    csimpl in Heq; try done.
  injection Heq as Hd Hrest.
  rewrite !for_in_cons, !studyBody_run.
  rewrite <- (mapMatchesToStudy_designation study study') by done.
  destruct (mapMatchesToStudy study tciaCollections tciaCollectionsData h)
    as [[urls|e] h']; [|done].
  by apply IH.
Qed.

(** X18. The descriptions that [collectMappings] leaves in the listing, and
    whether it throws, depend on the designations of the studies alone and
    not on their counts: a study that is left out of the output for its
    node count has its archive A matches cleaned like any other. *)
Theorem descriptions_ignore_counts (studies studies' : list Study)
    (tciaCollections : list string)
    (tciaCollectionsData : gmap string (list Series)) (h : list IdcCollection) :
  clinical_study_designation <$> studies = clinical_study_designation <$> studies' →
  (collectMappings (Some studies) tciaCollections tciaCollectionsData h).2
  = (collectMappings (Some studies') tciaCollections tciaCollectionsData h).2
  ∧ ∀ e,
      (collectMappings (Some studies) tciaCollections tciaCollectionsData h).1
      = Throw e
      ↔ (collectMappings (Some studies') tciaCollections tciaCollectionsData h).1
        = Throw e.
Proof.
  intros Heq. rewrite !collectMappings_loop. simpl.
  by apply study_loop_designations.
Qed.

End AnyMatcher.

(** ** fetchData.js: a run, for a matcher that returns candidates *)

Lemma getTciaCollectionMetadata_Collection (collectionId : string)
    (tciaCollectionsData : gmap string (list Series)) (icdcStudy : Study)
    (meta : TciaMetadata) :
  getTciaCollectionMetadata collectionId tciaCollectionsData icdcStudy = Ok meta →
  Collection meta = collectionId.
Proof.
  unfold getTciaCollectionMetadata.
  destruct (tciaCollectionsData !! collectionId); [|done].
  destruct (isGlioma icdcStudy); by intros [= <-].
Qed.

Lemma no_failure_no_log (series : nat -> string -> response (list Series))
    (names : list string) :
  (∀ i name, failure (series i name) = None) →
  omap failure (imap series names) = [].
Proof.
  revert series. induction names as [|name names IH]; intros series Hok; [done|].
  rewrite imap_cons. csimpl. rewrite Hok. apply IH. intros i n. apply Hok.
Qed.

Section Run.
Variables IDC_COLLECTION_BASE_URL TCIA_COLLECTION_BASE_URL : string.
Variable BENTO_BACKEND_NOT_CONNECTED : string.
Variable search : string -> list string -> list string.
Variable htmlToText : string -> string.

Hypothesis search_sub :
  ∀ query candidates x, x ∈ search query candidates → x ∈ candidates.

Local Abbreviation mapMatchesToStudy :=
  (mapMatchesToStudy IDC_COLLECTION_BASE_URL TCIA_COLLECTION_BASE_URL search htmlToText).
Local Abbreviation collectMappings :=
  (collectMappings IDC_COLLECTION_BASE_URL TCIA_COLLECTION_BASE_URL search htmlToText).
Local Abbreviation mapExternalDataToStudies :=
  (mapExternalDataToStudies IDC_COLLECTION_BASE_URL TCIA_COLLECTION_BASE_URL
     BENTO_BACKEND_NOT_CONNECTED search htmlToText).
Local Abbreviation idc_link := (idc_link IDC_COLLECTION_BASE_URL).
Local Abbreviation tcia_link := (tcia_link TCIA_COLLECTION_BASE_URL).
Local Abbreviation emitted :=
  (emitted IDC_COLLECTION_BASE_URL TCIA_COLLECTION_BASE_URL search htmlToText).

Lemma search_nil (query : string) : search query [] = [].
Proof.
  destruct (search query []) as [|x l] eqn:Hsearch; [done|].
  assert (x ∈ search query []) as Hin by (rewrite Hsearch; by left).
  apply search_sub in Hin. by apply elem_of_nil in Hin.
Qed.

(** What an entry of the result says about itself. *)
Definition resolves (tciaCollectionsData : gmap string (list Series))
    (h : list IdcCollection) (r : MatchResult) : Prop :=
  match metadata r with
  | IdcMetadata i =>
      repository r = IDC
      ∧ ∃ obj, h !! i = Some obj
               ∧ url r = (IDC_COLLECTION_BASE_URL ++ collection_id obj)%string
  | TciaMeta meta =>
      repository r = TCIA
      ∧ url r = (TCIA_COLLECTION_BASE_URL ++ Collection meta)%string
      ∧ hasSeries tciaCollectionsData (Collection meta) = true
  end.

Lemma links_resolve_parts (tciaCollectionsData : gmap string (list Series))
    (icdcStudy : Study) (h h' : list IdcCollection)
    (idcMatches tciaMatches : list string) (idcPart tciaPart : list MatchResult) :
  collection_id <$> h' = collection_id <$> h →
  Forall2 (idc_link (collection_id <$> h)) idcMatches idcPart →
  Forall2 (tcia_link tciaCollectionsData icdcStudy)
          (filter (fun name => hasSeries tciaCollectionsData name) tciaMatches)
          tciaPart →
  Forall (resolves tciaCollectionsData h') (idcPart ++ tciaPart).
Proof.
  intros Hids Hidc Htcia. apply Forall_app. split.
  - clear Htcia. induction Hidc as [|name r names rs Hlink _ IH]; constructor; [|done].
    destruct Hlink as (Hrepo & Hurl & i & Hmeta & Hi & _).
    unfold resolves. rewrite Hmeta. split; [done|].
    rewrite <- Hids, list_lookup_fmap in Hi.
    destruct (h' !! i) as [obj|]; [|done].
    injection Hi as <-. by exists obj.
  - clear Hidc.
    remember (filter (fun name => hasSeries tciaCollectionsData name) tciaMatches)
      as kept eqn:Hkept.
    assert (Forall (fun name => hasSeries tciaCollectionsData name = true) kept)
      as Hhas.
    { subst kept. apply Forall_forall. intros name [Hname _]%list_elem_of_filter.
      by destruct (hasSeries tciaCollectionsData name). }
    clear Hkept.
    induction Htcia as [|name r names rs Hlink _ IH]; constructor.
    + destruct Hlink as (Hrepo & Hurl & meta & Hmeta & Hr).
      apply getTciaCollectionMetadata_Collection in Hmeta as Hname.
      unfold resolves. rewrite Hr, Hname. split_and!; [done..|].
      by apply Forall_cons in Hhas as [? _].
    + apply IH. by apply Forall_cons in Hhas as [_ ?].
Qed.

(** X19. Every entry [mapMatchesToStudy] returns is consistent with the listing
    as the call leaves it: an archive A entry points at an object of the
    listing and its URL is the archive A base URL followed by the id of
    that object; an archive B entry has the archive B base URL followed by
    the name its metadata carries, a name with at least one series. *)
Theorem links_resolve (icdcStudy : Study) (tciaCollections : list string)
    (tciaCollectionsData : gmap string (list Series)) (h : list IdcCollection) :
  ∃ links h',
    mapMatchesToStudy icdcStudy tciaCollections tciaCollectionsData h = (Ok links, h')
    ∧ Forall (resolves tciaCollectionsData h') links.
Proof.
  destruct (mapMatchesToStudy_returns IDC_COLLECTION_BASE_URL TCIA_COLLECTION_BASE_URL
              search htmlToText search_sub icdcStudy tciaCollections
              tciaCollectionsData h)
    as (idcPart & tciaPart & h' & Hrun & Hidc & Htcia & Hids).
  exists (idcPart ++ tciaPart), h'. split; [done|].
  by eapply links_resolve_parts.
Qed.

Lemma pipeline_run (w : World) (body : RegistryBody) (console : list js_error) :
  registry w = Json body →
  ∃ idc c1 names c2 td c3 ms heap,
    getIdcCollections (idcListing w) console = (Ok idc, c1)
    ∧ getTciaCollections (tciaListing w) c1 = (Ok names, c2)
    ∧ getTciaCollectionsData (tciaSeries w) names c2 = (Ok td, c3)
    ∧ mapExternalDataToStudies w console = (Ok (Mappings ms, heap), c3)
    ∧ Forall2 (emitted idc names td)
              (filter qualifies (default [] (data body ≫= studiesByProgram))) ms
    ∧ collection_id <$> heap = collection_id <$> idc.
Proof.
  intros Hbody.
  open_mapExternalDataToStudies. unfold try_catch, mbind at 1, M_bind at 1.
  assert (getIcdcStudyData BENTO_BACKEND_NOT_CONNECTED (registry w) console
          = (Ok (data body ≫= studiesByProgram), console)) as ->.
  { open_getIcdcStudyData. rewrite Hbody. reflexivity. }
  unfold mbind at 1, M_bind at 1.
  destruct (getIdcCollections_returns (idcListing w) console)
    as (idc & c1 & Hidc). rewrite Hidc.
  unfold mbind at 1, M_bind at 1.
  destruct (getTciaCollections_returns (tciaListing w) c1)
    as (names & c2 & Hnames). rewrite Hnames.
  unfold mbind at 1, M_bind at 1.
  destruct (getTciaCollectionsData_from_returns (tciaSeries w) names O ∅ c2)
    as (td & c3 & Htd).
  unfold getTciaCollectionsData. rewrite Htd.
  unfold mbind at 1, M_bind at 1, with_heap.
  rewrite collectMappings_loop.
  destruct (study_loop IDC_COLLECTION_BASE_URL TCIA_COLLECTION_BASE_URL search
              htmlToText search_sub idc names td
              (default [] (data body ≫= studiesByProgram)) [] idc eq_refl)
    as (ms & h' & -> & Hms & Hh').
  simpl. by exists idc, c1, names, c2, td, c3, ms, h'.
Qed.

Lemma emitted_links (idc : list IdcCollection) (names : list string)
    (td : gmap string (list Series)) (study : Study) (m : StudyMapping) :
  emitted idc names td study m →
  ∃ idcPart tciaPart,
    CRDCLinks m = idcPart ++ tciaPart
    ∧ Forall2 (idc_link (collection_id <$> idc))
              (search (clinical_study_designation study) (collection_id <$> idc))
              idcPart
    ∧ Forall2 (tcia_link td study)
              (filter (fun name => hasSeries td name)
                      (search (clinical_study_designation study) names))
              tciaPart.
Proof.
  intros (_ & _ & _ & h & h' & Hh & Hrun).
  destruct (mapMatchesToStudy_returns IDC_COLLECTION_BASE_URL TCIA_COLLECTION_BASE_URL
              search htmlToText search_sub study names td h)
    as (idcPart & tciaPart & h'' & Hrun' & Hidc & Htcia & _).
  rewrite Hrun in Hrun'. injection Hrun' as -> _.
  rewrite Hh in Hidc. by exists idcPart, tciaPart.
Qed.

(** X20. When the archive A listing cannot be fetched and the registry answers,
    the run resolves with mappings whose links are all archive B links,
    and leaves no archive A object. *)
Theorem archive_a_down (w : World) (body : RegistryBody) (e : js_error)
    (console : list js_error) :
  registry w = Json body →
  failure (idcListing w) = Some e →
  ∃ collectionMappings console',
    mapExternalDataToStudies w console
    = (Ok (Mappings collectionMappings, []), console')
    ∧ Forall (fun m => Forall (fun r => repository r = TCIA) (CRDCLinks m))
             collectionMappings.
Proof.
  intros Hbody Hfail.
  destruct (pipeline_run w body console Hbody)
    as (idc & c1 & names & c2 & td & c3 & ms & heap
        & Hidc & _ & _ & Hrun & Hms & Hheap).
  rewrite (getIdcCollections_failure _ e) in Hidc by done.
  injection Hidc as <- <-.
  apply fmap_nil_inv in Hheap as ->.
  exists ms, c3. split; [done|].
  apply Forall_forall. intros m Hm.
  apply list_elem_of_lookup in Hm as [i Hi].
  destruct (Forall2_lookup_r _ _ _ _ _ Hms Hi) as (study & _ & Hemitted).
  destruct (emitted_links _ _ _ _ _ Hemitted) as (idcPart & tciaPart & -> & Hidc & Htcia).
  csimpl in Hidc. rewrite search_nil in Hidc.
  apply Forall2_nil_inv_l in Hidc as ->. simpl.
  clear -Htcia.
  induction Htcia as [|name r names' rs [Hrepo _] _ IH]; by constructor.
Qed.

(** X21. When the archive B listing cannot be fetched and the registry answers,
    no series is requested: the failure of the listing is the last thing
    logged, and the run resolves with mappings whose links are all archive
    A links. *)
Theorem archive_b_down (w : World) (body : RegistryBody) (e : js_error)
    (console : list js_error) :
  registry w = Json body →
  failure (tciaListing w) = Some e →
  ∃ collectionMappings idcCollections heap c1,
    getIdcCollections (idcListing w) console = (Ok idcCollections, c1)
    ∧ mapExternalDataToStudies w console
      = (Ok (Mappings collectionMappings, heap), c1 ++ [e])
    ∧ Forall (fun m => Forall (fun r => repository r = IDC) (CRDCLinks m))
             collectionMappings.
Proof.
  intros Hbody Hfail.
  destruct (pipeline_run w body console Hbody)
    as (idc & c1 & names & c2 & td & c3 & ms & heap
        & Hidc & Hnames & Htd & Hrun & Hms & Hheap).
  rewrite (getTciaCollections_failure _ e) in Hnames by done.
  injection Hnames as <- <-.
  injection Htd as <- <-.
  exists ms, idc, heap, c1. split_and!; [done..|].
  apply Forall_forall. intros m Hm.
  apply list_elem_of_lookup in Hm as [i Hi].
  destruct (Forall2_lookup_r _ _ _ _ _ Hms Hi) as (study & _ & Hemitted).
  destruct (emitted_links _ _ _ _ _ Hemitted) as (idcPart & tciaPart & -> & Hidc' & Htcia).
  rewrite search_nil in Htcia. rewrite filter_nil in Htcia.
  apply Forall2_nil_inv_l in Htcia as ->. rewrite app_nil_r.
  clear -Hidc'.
  induction Hidc' as [|name r names' rs [Hrepo _] _ IH]; by constructor.
Qed.

(** X22. When every service answers with a well-formed body, the run logs
    nothing. *)
Theorem healthy_run_logs_nothing (w : World) (body : RegistryBody)
    (items : list IdcItem) (listing : list TciaItem) (console : list js_error) :
  registry w = Json body →
  idcListing w = Json {| collections := Some items |} →
  Forall (fun item => is_Some (item_collection_id item)) items →
  tciaListing w = Json listing →
  Forall (fun item => is_Some (item_Collection item)) listing →
  (∀ i name, failure (tciaSeries w i name) = None) →
  ∃ collectionMappings heap,
    mapExternalDataToStudies w console
    = (Ok (Mappings collectionMappings, heap), console).
Proof.
  intros Hbody Hidc Hitems Htcia Hlisting Hseries.
  destruct (pipeline_run w body console Hbody)
    as (idc & c1 & names & c2 & td & c3 & ms & heap
        & Hidc' & Hnames & Htd & Hrun & _).
  rewrite Hidc, getIdcCollections_run in Hidc' by done.
  injection Hidc' as _ <-.
  rewrite Htcia, getTciaCollections_run in Hnames by done.
  injection Hnames as _ <-.
  destruct (getTciaCollectionsData_from_run (tciaSeries w) names O ∅ console)
    as (td' & Htd' & _).
  unfold getTciaCollectionsData in Htd. rewrite Htd' in Htd.
  rewrite no_failure_no_log, app_nil_r in Htd by done.
  injection Htd as _ <-.
  by exists ms, heap.
Qed.

End Run.

(** ** fetchData.js: the clean-up of the special case *)

Lemma includes_cons (c : ascii) (r key : string) :
  includes (String c r) key = false →
  String.prefix key (String c r) = false ∧ includes r key = false.
Proof. simpl includes. by intros [? ?]%orb_false_iff. Qed.

Lemma replaceAll_no_match (matchLen : string -> option nat) (by_ : string)
    (ok : string -> Prop) (s : string) :
  (∀ c r, ok (String c r) → matchLen (String c r) = None ∧ ok r) →
  ok s → replaceAll matchLen by_ O s = s.
Proof.
  intros Hstep. induction s as [|c r IH]; intros Hok; [done|].
  destruct (Hstep c r Hok) as [Hnone Hr].
  simpl. rewrite Hnone. f_equal. by apply IH.
Qed.

Lemma dropString_no_bracket (s : string) (n : nat) :
  includes s "[" = false →
  match dropString n s with
  | String "[" _ => False
  | _ => True
  end.
Proof.
  revert n. induction s as [|c r IH]; intros n Hs; [by destruct n|].
  apply includes_cons in Hs as [Hprefix Hr].
  destruct n as [|n]; simpl.
  - simpl in Hprefix.
    destruct (Ascii.ascii_dec "[" c) as [<-|Hne]; [by destruct r|].
    destruct c as [[] [] [] [] [] [] [] []]; try done.
  - by apply IH.
Qed.

(** X23. A description that has no opening bracket, no two line feeds in a row,
    no space before a period and no " ICDC-Glioma" is left as it is by the
    clean-up for GLIOMA01. *)
Theorem cleanGlioma_leaves_plain_text (text : string) :
  includes text "[" = false →
  includes text (String "010" (String "010" "")) = false →
  includes text " ." = false →
  includes text " ICDC-Glioma" = false →
  cleanGlioma text = text.
Proof.
  intros Hbracket Hblank Hdot Hsuffix. unfold cleanGlioma.
  rewrite (replaceAll_no_match matchBlankOrAnnotation " "
             (fun s => includes s "[" = false
                       ∧ includes s (String "010" (String "010" "")) = false)).
  - rewrite (replaceAll_no_match matchSpaceDot "."
               (fun s => includes s " ." = false)); [|
      intros c r [Hp Hr]%includes_cons; split; [|done];
      unfold matchSpaceDot; by rewrite Hp | done].
    clear -Hsuffix. induction text as [|c r IH]; [done|].
    apply includes_cons in Hsuffix as [Hp Hr].
    unfold replaceFirst; fold replaceFirst. rewrite Hp. f_equal. by apply IH.
  - intros c r [Hb Hn]. pose proof (includes_cons _ _ _ Hb) as [_ Hbr].
    apply includes_cons in Hn as [Hnp Hnr]. split; [|done].
    unfold matchBlankOrAnnotation. rewrite Hnp. unfold matchAnnotation.
    pose proof (dropString_no_bracket (String c r)
                  (leadingWhiteSpace (String c r)) Hb) as Hdrop.
    destruct (dropString (leadingWhiteSpace (String c r)) (String c r))
      as [|c' r']; [done|].
    destruct (Ascii.ascii_dec "[" c') as [<-|Hne]; [done|].
    destruct c' as [[] [] [] [] [] [] [] []]; try done.
  - done.
Qed.

(** * The further properties on the sample data *)

Module MoreSamples.
Import Sample.

(** A matcher that returns a name it was not given. *)
Definition ghostSearch (query : string) (candidates : list string) : list string :=
  ["icdc_ghost"].

Definition collectWithGhost :=
  collectMappings IDC_COLLECTION_BASE_URL TCIA_COLLECTION_BASE_URL ghostSearch
    htmlToText.

Definition mapExternalDataToStudies_with_ghost :=
  mapExternalDataToStudies IDC_COLLECTION_BASE_URL TCIA_COLLECTION_BASE_URL
    BENTO_BACKEND_NOT_CONNECTED ghostSearch htmlToText.

(** The registry and archive A answer; the archive B listing is
    unreachable. *)
Definition archiveBDown : World :=
  {| registry := Json registryBody;
     idcListing :=
       Json {| collections :=
                 Some [{| item_collection_id := Some "icdc_glioma";
                          item_description := "<p>Canine glioma</p>" |};
                       {| item_collection_id := Some "tcga_brca";
                          item_description := "other" |}] |};
     tciaListing := Malformed;
     tciaSeries := seriesAnswer |}.

Definition healthyItems : list IdcItem :=
  [{| item_collection_id := Some "icdc_glioma";
      item_description := "<p>Canine glioma</p>" |};
   {| item_collection_id := Some "tcga_brca"; item_description := "other" |};
   {| item_collection_id := Some "icdc_cotc007b"; item_description := "COTC" |}].

Definition healthyListing : list TciaItem :=
  [{| item_Collection := Some "ICDC-Glioma" |};
   {| item_Collection := Some "TCGA-BRCA" |};
   {| item_Collection := Some "icdc-lowercase" |};
   {| item_Collection := Some "ICDC-COTC007B" |}].

(** Every service answers. *)
Definition healthy : World :=
  {| registry := Json registryBody;
     idcListing := Json {| collections := Some healthyItems |};
     tciaListing := Json healthyListing;
     tciaSeries := fun _ name =>
       Json (if bool_decide (name = "ICDC-Glioma") then gliomaSeries else cotcSeries) |}.

End MoreSamples.

Section OnMoreSamples.
Import Sample MoreSamples.

Local Abbreviation mapMatchesToStudy :=
  (mapMatchesToStudy IDC_COLLECTION_BASE_URL TCIA_COLLECTION_BASE_URL search htmlToText).
Local Abbreviation collectMappings :=
  (collectMappings IDC_COLLECTION_BASE_URL TCIA_COLLECTION_BASE_URL search htmlToText).
Local Abbreviation mapExternalDataToStudies :=
  (mapExternalDataToStudies IDC_COLLECTION_BASE_URL TCIA_COLLECTION_BASE_URL
     BENTO_BACKEND_NOT_CONNECTED search htmlToText).
Local Abbreviation resolves :=
  (resolves IDC_COLLECTION_BASE_URL TCIA_COLLECTION_BASE_URL).

Lemma filterObjectArray_again_witness :
  filterObjectArray
    [ {| item_Collection := Some "ICDC-Glioma" |};
      {| item_Collection := Some "ICDC-COTC007B" |} ] item_Collection "ICDC-"
  = Ok [ {| item_Collection := Some "ICDC-Glioma" |};
         {| item_Collection := Some "ICDC-COTC007B" |} ]
  ∧ sublist [ {| item_Collection := Some "ICDC-Glioma" |};
              {| item_Collection := Some "ICDC-COTC007B" |} ] healthyListing.
Proof.
  destruct (filterObjectArray_again healthyListing
              [ {| item_Collection := Some "ICDC-Glioma" |};
                {| item_Collection := Some "ICDC-COTC007B" |} ]
              item_Collection "ICDC-") as (Hagain & Hsub & _).
  - reflexivity.
  - split; [exact Hagain | exact Hsub].
Defined.

Example filterObjectArrayByProps_sample :
  filterObjectArrayByProps
    [ {[ "Collection" := "ICDC-Glioma"; "Modality" := "MR"; "PatientID" := "g1" ]};
      {[ "Collection" := "ICDC-COTC007B" ]} ]
    ["PatientID"; "Collection"; "Species"]
  = [ {[ "Collection" := "ICDC-Glioma"; "PatientID" := "g1" ]};
      {[ "Collection" := "ICDC-COTC007B" ]} ].
Proof. vm_compute. reflexivity. Qed.

(** An own property [__proto__] is not copied, also when it is asked
    for. *)
Example filterObjectArrayByProps_proto :
  filterObjectArrayByProps
    [ {[ "__proto__" := "x"; "Collection" := "ICDC-Glioma" ]} ]
    ["__proto__"; "Collection"]
  = [ {[ "Collection" := "ICDC-Glioma" ]} ].
Proof. vm_compute. reflexivity. Qed.

Lemma scanConfigObject_criterion_witness :
  (scanConfigObject 0 [("A", Undefined); ("VERSION", Undefined); ("B", Text "");
                       ("C", Text "x")]).1
  = Throw (Error "The following environment variables are not set: A, B").
Proof.
  destruct (scanConfigObject_criterion 0
              [("A", Undefined); ("VERSION", Undefined); ("B", Text "");
               ("C", Text "x")]) as [Hrun _].
  - apply (bool_decide_unpack _). vm_compute. exact I.
  - apply (bool_decide_unpack _). vm_compute. exact I.
  - exact Hrun.
Defined.

Example config_startup_sample :
  scanConfigObject 7 (config {| env_VERSION := Undefined;
                                env_DATE := Undefined;
                                env_BENTO_BACKEND_GRAPHQL_URI := Text "http://backend" |})
  = (Ok tt,
     [("VERSION", Undefined); ("DATE", Undefined);
      ("BENTO_BACKEND_GRAPHQL_URI", Text "http://backend");
      ("version", Text "Version not set!"); ("date", DateValue 7)]).
Proof. reflexivity. Qed.

Lemma getIdcCollections_listing_witness :
  getIdcCollections (Json {| collections := Some healthyItems |}) []
  = (Ok [ {| collection_id := "icdc_glioma"; description := "<p>Canine glioma</p>" |};
          {| collection_id := "icdc_cotc007b"; description := "COTC" |} ], []).
Proof.
  destruct (getIdcCollections_listing healthyItems [])
    as [(idcCollections & Hrun & _) _].
  - repeat constructor; by eexists.
  - rewrite Hrun. f_equal. vm_compute in Hrun. congruence.
Defined.

Lemma getTciaCollections_listing_witness :
  getTciaCollections (Json healthyListing) []
  = (Ok ["ICDC-Glioma"; "ICDC-COTC007B"], []).
Proof.
  apply (getTciaCollections_listing healthyListing
           ["ICDC-Glioma"; "TCGA-BRCA"; "icdc-lowercase"; "ICDC-COTC007B"] []).
  reflexivity.
Defined.

(** A name listed twice is asked for twice, and the second answer stays. *)
Example getTciaCollectionsData_sample :
  getTciaCollectionsData
    (fun i name => if bool_decide (i = 0%nat) then Json cotcSeries else Rejected)
    ["ICDC-X"; "ICDC-Y"; "ICDC-X"] []
  = (Ok (<["ICDC-X" := []]> (<["ICDC-Y" := []]> ∅)), [FetchError; FetchError]).
Proof. vm_compute. reflexivity. Qed.

Lemma aggregate_NaN_iff_witness :
  (∃ meta,
     getTciaCollectionMetadata "c"
       {["c" := [series "10" "p1" "MR" "HEAD"; series "n/a" "p2" "MR" "HEAD"]]} glioma
     = Ok meta
     ∧ Aggregate_ImageCount meta = NaN)
  ∧ (∃ meta,
       getTciaCollectionMetadata "ICDC-COTC007B" tciaCollectionsData cotc = Ok meta
       ∧ Aggregate_ImageCount meta ≠ NaN).
Proof.
  split.
  - destruct (aggregate_NaN_iff "c"
                {["c" := [series "10" "p1" "MR" "HEAD"; series "n/a" "p2" "MR" "HEAD"]]}
                glioma [series "10" "p1" "MR" "HEAD"; series "n/a" "p2" "MR" "HEAD"])
      as (meta & Hmeta & Hnan & _).
    + reflexivity.
    + exists meta. split; [exact Hmeta|]. apply Hnan.
      exists (series "n/a" "p2" "MR" "HEAD"). split; [right; left|reflexivity].
  - destruct (aggregate_NaN_iff "ICDC-COTC007B" tciaCollectionsData cotc cotcSeries)
      as (meta & Hmeta & _ & Hiff).
    + reflexivity.
    + exists meta. split; [exact Hmeta|]. intros Hnan.
      apply Hiff in Hnan as (obj & Hobj & Hparse).
      * repeat (apply elem_of_cons in Hobj as [->|Hobj];
                [vm_compute in Hparse; discriminate|]).
        by apply elem_of_nil in Hobj.
      * repeat (constructor; [simpl; lia|]). constructor.
Defined.

(** A count of 400 digits parses to Infinity and its negative to -Infinity:
    their sum is NaN although both parse. *)
Example image_count_beyond_the_doubles :
  parseInt (string_of_list_ascii (replicate 400 "9"%char)) = Infinity false
  ∧ Aggregate_ImageCount <$>
      match getTciaCollectionMetadata "c"
              {["c" := [series (string_of_list_ascii (replicate 400 "9"%char))
                               "p1" "MR" "HEAD";
                        series (string_of_list_ascii ("-"%char :: replicate 400 "9"%char))
                               "p2" "MR" "HEAD"]]}
              cotc with
      | Ok meta => Some meta
      | Throw _ => None
      end
    = Some NaN.
Proof. split; vm_compute; reflexivity. Qed.

Lemma aggregate_order_independent_witness :
  ∃ meta meta',
    getTciaCollectionMetadata "c" {["c" := cotcSeries]} cotc = Ok meta
    ∧ getTciaCollectionMetadata "c" {["c" := reverse cotcSeries]} cotc = Ok meta'
    ∧ Aggregate_PatientID meta = Aggregate_PatientID meta'
    ∧ Aggregate_ImageCount meta = Aggregate_ImageCount meta'.
Proof.
  destruct (aggregate_order_independent "c" {["c" := cotcSeries]}
              {["c" := reverse cotcSeries]} cotc cotcSeries (reverse cotcSeries))
    as (meta & meta' & Hmeta & Hmeta' & Hpatients & _ & _ & Hcount).
  - symmetry. apply reverse_Permutation.
  - reflexivity.
  - reflexivity.
  - exists meta, meta'. split_and!; [assumption..|].
    apply (Hcount [10; 5; 7]%N); [vm_compute; reflexivity | vm_compute; discriminate].
Defined.

(** Beyond the safe integers the order of the series shows in the image
    count: 2^53 + 1 + 1 is 2^53 from the left and 2^53 + 2 from the
    right. *)
Example image_count_follows_the_order :
  Aggregate_ImageCount <$>
    match getTciaCollectionMetadata "c"
            {["c" := [series "9007199254740992" "p1" "MR" "HEAD";
                      series "1" "p1" "MR" "HEAD"; series "1" "p1" "MR" "HEAD"]]}
            cotc with
    | Ok meta => Some meta
    | Throw _ => None
    end
  = Some (Int 9007199254740992)
  ∧ Aggregate_ImageCount <$>
      match getTciaCollectionMetadata "c"
              {["c" := [series "1" "p1" "MR" "HEAD"; series "1" "p1" "MR" "HEAD";
                        series "9007199254740992" "p1" "MR" "HEAD"]]}
              cotc with
      | Ok meta => Some meta
      | Throw _ => None
      end
    = Some (Int 9007199254740994).
Proof. split; vm_compute; reflexivity. Qed.

Example modalities_follow_the_order :
  Aggregate_Modality <$>
    match getTciaCollectionMetadata "c" {["c" := reverse cotcSeries]} cotc with
    | Ok meta => Some meta
    | Throw _ => None
    end
  = Some ["MR"; "CT"]
  ∧ Aggregate_BodyPartExamined <$>
      match getTciaCollectionMetadata "c" {["c" := reverse cotcSeries]} cotc with
      | Ok meta => Some meta
      | Throw _ => None
      end
    = Some ["CHEST"; "HEAD"].
Proof. split; vm_compute; reflexivity. Qed.

Lemma aggregate_bounds_witness :
  ∃ meta,
    getTciaCollectionMetadata "ICDC-COTC007B" tciaCollectionsData cotc = Ok meta
    ∧ (1 ≤ Aggregate_PatientID meta ≤ 3)%nat.
Proof.
  destruct (aggregate_bounds "ICDC-COTC007B" tciaCollectionsData cotc cotcSeries)
    as (meta & Hmeta & Hpatients & _).
  - reflexivity.
  - discriminate.
  - exists meta. split; [exact Hmeta | exact Hpatients].
Defined.

Example getIdcCollectionMetadata_sample :
  getIdcCollectionMetadata htmlToText "icdc_cotc007b" cotc idcCollections
  = (Ok 1%nat,
     [ {| collection_id := "icdc_glioma"; description := "<p>Canine glioma [1] .</p>" |};
       {| collection_id := "icdc_cotc007b"; description := "<b>COTC</b> trial" |} ])
  ∧ getIdcCollectionMetadata htmlToText "icdc_ghost" cotc idcCollections
    = (Throw TypeError, idcCollections).
Proof. split; vm_compute; reflexivity. Qed.

Lemma no_archive_a_match_witness :
  ∃ links,
    mapMatchesToStudy cotc tciaCollections tciaCollectionsData
      [ {| collection_id := "icdc_glioma"; description := "<p>Canine glioma</p>" |} ]
    = (Ok links,
       [ {| collection_id := "icdc_glioma"; description := "<p>Canine glioma</p>" |} ])
    ∧ Forall (fun r => repository r = TCIA) links.
Proof.
  destruct (no_archive_a_match IDC_COLLECTION_BASE_URL TCIA_COLLECTION_BASE_URL
              search htmlToText cotc tciaCollections tciaCollectionsData
              [ {| collection_id := "icdc_glioma";
                   description := "<p>Canine glioma</p>" |} ])
    as (links & Hrun & Hlinks & _).
  - reflexivity.
  - exists links. split; [exact Hrun | exact Hlinks].
Defined.

Lemma unknown_match_is_fatal_witness :
  ∃ h',
    collectWithGhost (Some [unlinked; cotc]) tciaCollections tciaCollectionsData
      idcCollections
    = (Throw TypeError, h').
Proof.
  destruct (unknown_match_is_fatal IDC_COLLECTION_BASE_URL TCIA_COLLECTION_BASE_URL
              ghostSearch htmlToText [unlinked; cotc] cotc tciaCollections
              tciaCollectionsData idcCollections)
    as (_ & h' & Hrun & _).
  - right. left.
  - exists "icdc_ghost". split; [left|].
    apply (bool_decide_unpack _). vm_compute. exact I.
  - exists h'. exact Hrun.
Defined.

Example never_rejects_sample :
  mapExternalDataToStudies_with_ghost healthy []
  = (Ok (Caught TypeError, []), [TypeError]).
Proof. vm_compute. reflexivity. Qed.

Lemma descriptions_ignore_counts_witness :
  (collectMappings (Some [cotc; glioma]) tciaCollections tciaCollectionsData
     idcCollections).2
  = (collectMappings (Some [unlinked; glioma]) tciaCollections tciaCollectionsData
       idcCollections).2.
Proof.
  destruct (descriptions_ignore_counts IDC_COLLECTION_BASE_URL
              TCIA_COLLECTION_BASE_URL search htmlToText
              [cotc; glioma] [unlinked; glioma] tciaCollections
              tciaCollectionsData idcCollections) as [Hheap _].
  - reflexivity.
  - exact Hheap.
Defined.

Lemma links_resolve_witness :
  ∃ links h',
    mapMatchesToStudy glioma tciaCollections tciaCollectionsData idcCollections
    = (Ok links, h')
    ∧ Forall (resolves tciaCollectionsData h') links.
Proof.
  apply (links_resolve IDC_COLLECTION_BASE_URL TCIA_COLLECTION_BASE_URL
           search htmlToText).
  intros query candidates x. apply search_sub.
Defined.

Lemma archive_a_down_witness :
  ∃ collectionMappings console',
    mapExternalDataToStudies archiveADown []
    = (Ok (Mappings collectionMappings, []), console')
    ∧ Forall (fun m => Forall (fun r => repository r = TCIA) (CRDCLinks m))
             collectionMappings.
Proof.
  apply (archive_a_down IDC_COLLECTION_BASE_URL TCIA_COLLECTION_BASE_URL
           BENTO_BACKEND_NOT_CONNECTED search htmlToText
           (fun query candidates x => search_sub query candidates x)
           archiveADown registryBody FetchError []); reflexivity.
Defined.

Lemma archive_b_down_witness :
  ∃ collectionMappings idcCollections heap c1,
    getIdcCollections (idcListing archiveBDown) [] = (Ok idcCollections, c1)
    ∧ mapExternalDataToStudies archiveBDown []
      = (Ok (Mappings collectionMappings, heap), c1 ++ [SyntaxError])
    ∧ Forall (fun m => Forall (fun r => repository r = IDC) (CRDCLinks m))
             collectionMappings.
Proof.
  apply (archive_b_down IDC_COLLECTION_BASE_URL TCIA_COLLECTION_BASE_URL
           BENTO_BACKEND_NOT_CONNECTED search htmlToText
           (fun query candidates x => search_sub query candidates x)
           archiveBDown registryBody SyntaxError []); reflexivity.
Defined.

Example archive_b_down_sample :
  mapExternalDataToStudies archiveBDown []
  = (Ok (Mappings
           [ {| CRDCLinks :=
                  [ {| repository := IDC;
                       url := "https://idc.example/collections/icdc_glioma";
                       metadata := IdcMetadata 0 |} ];
                mapping_numberOfCRDCNodes := Some 2;
                mapping_numberOfImageCollections := Some 2;
                mapping_clinical_study_designation := "GLIOMA01" |};
             {| CRDCLinks := [];
                mapping_numberOfCRDCNodes := Some 1;
                mapping_numberOfImageCollections := Some 1;
                mapping_clinical_study_designation := "COTC007B" |} ],
         [ {| collection_id := "icdc_glioma"; description := "Canine glioma" |} ]),
     [SyntaxError]).
Proof. vm_compute. reflexivity. Qed.

Lemma healthy_run_logs_nothing_witness :
  ∃ collectionMappings heap,
    mapExternalDataToStudies healthy [] = (Ok (Mappings collectionMappings, heap), []).
Proof.
  apply (healthy_run_logs_nothing IDC_COLLECTION_BASE_URL TCIA_COLLECTION_BASE_URL
           BENTO_BACKEND_NOT_CONNECTED search htmlToText
           (fun query candidates x => search_sub query candidates x)
           healthy registryBody healthyItems healthyListing []).
  - reflexivity.
  - reflexivity.
  - repeat constructor; by eexists.
  - reflexivity.
  - repeat constructor; by eexists.
  - reflexivity.
Defined.

Lemma cleanGlioma_leaves_plain_text_witness :
  cleanGlioma "Canine glioma: MR and CT of the head."
  = "Canine glioma: MR and CT of the head.".
Proof.
  apply cleanGlioma_leaves_plain_text; reflexivity.
Defined.

End OnMoreSamples.
